(** * combination-guess: the two ESP32 nodes of the guessing game

    A shallow embedding of the four firmware sources of the repository:

    - [Manager]        : esp32-guessing-game-manager/src/main.cpp
    - [ManagerPart000] : src/unnamed/part_000 (the other game-manager sketch)
    - [Remote]         : esp32-guessing-game-remote/src/main.cpp
    - [RemotePart001]  : src/unnamed/part_001 (the other remote sketch)

    Globals of a sketch become the fields of a record, every C++ function an
    action of a small state / output / failure monad.  What the hardware
    supplies (the millisecond clock, the level of a pin, the status of a
    transmission, the raw draws of the pseudo-random source) is an argument
    of the action that consumes it; what the firmware does to the outside
    (radio transmissions, serial log, delays, LED writes) is appended to an
    output trace.  An access outside an array stops the action with
    [OutOfBounds]. *)

From Stdlib Require Import ZArith List Bool String Lia.
Import ListNotations.
Open Scope Z_scope.

(** ** Machine integers *)

(** [uint8_t] and [uint32_t] arithmetic wraps around. *)
Definition wrap8 (z : Z) : Z := z mod 256.
Definition wrap32 (z : Z) : Z := z mod 4294967296.

Definition HIGH : bool := true.
Definition LOW : bool := false.

(** ** Outside world *)

(** What a sketch does to its environment, in program order. *)
Inductive Effect : Type :=
| esp_now_send (byte : Z)
| Serial_print (text : string)
| Serial_print_num (n : Z)
| delay (ms : Z)
| digitalWrite (pin : Z) (level : bool)
| analogWrite (pin : Z).
Arguments Serial_print text%_string.

(** Modelled from the spec: Arduino's [random(min, max)] is not part of the
    repository; the spec describes it as a draw from the integers
    [min .. max-1].  [raw] is the value the pseudo-random source yields for
    this call. *)
Definition random (howsmall howbig raw : Z) : Z :=
  if howbig <=? howsmall then howsmall
  else raw mod (howbig - howsmall) + howsmall.

(** ** Results and the sketch monad *)

(** Why an action does not return: an array was indexed outside its bounds
    (undefined behaviour in C++), or a [while] loop was cut off. *)
Inductive Fault : Type :=
| OutOfBounds (index : Z)
| OutOfFuel.

Inductive Result (A : Type) : Type :=
| Ok (a : A)
| Fail (f : Fault).
Arguments Ok {A} a.
Arguments Fail {A} f.

(** An action over globals [G]: value, next globals and output, or the
    fault that stopped it. *)
Definition M (G A : Type) : Type := G -> Result (A * G * list Effect).

Definition ret {G A} (a : A) : M G A := fun g => Ok (a, g, []).

Definition bind {G A B} (m : M G A) (k : A -> M G B) : M G B :=
  fun g =>
    match m g with
    | Fail f => Fail f
    | Ok (a, g1, o1) =>
        match k a g1 with
        | Fail f => Fail f
        | Ok (b, g2, o2) => Ok (b, g2, o1 ++ o2)
        end
    end.

Definition get {G A} (field : G -> A) : M G A := fun g => Ok (field g, g, []).
Definition modify {G} (f : G -> G) : M G unit := fun g => Ok (tt, f g, []).
Definition emit {G} (e : Effect) : M G unit := fun g => Ok (tt, g, [e]).
Definition trap {G A} (f : Fault) : M G A := fun _ => Fail f.

Notation "x <- m ;; k" := (bind m (fun x => k))
  (at level 61, m at next level, right associativity).
Notation "m ;; k" := (bind m (fun _ => k))
  (at level 61, right associativity).

(** [for (int i = from; ...; ++i) body], for a trip count known on entry. *)
Fixpoint for_loop {G} (trips : nat) (i : Z) (body : Z -> M G unit) : M G unit :=
  match trips with
  | O => ret tt
  | S n => body i ;; for_loop n (i + 1) body
  end.

(** The state reached and the output produced, when the action returns. *)
Definition globals_of {G A} (r : Result (A * G * list Effect)) : option G :=
  match r with Ok (_, g, _) => Some g | Fail _ => None end.
Definition output_of {G A} (r : Result (A * G * list Effect)) : list Effect :=
  match r with Ok (_, _, o) => o | Fail _ => [] end.

(** ** Arrays with checked indices *)

Definition in_bounds {A} (a : list A) (i : Z) : bool :=
  (0 <=? i) && (i <? Z.of_nat (List.length a)).

Fixpoint update {A} (a : list A) (n : nat) (v : A) : list A :=
  match a, n with
  | [], _ => []
  | _ :: t, O => v :: t
  | h :: t, S m => h :: update t m v
  end.

(** [a[i]] *)
Definition load {G A} (a : list A) (i : Z) (dflt : A) : M G A :=
  if in_bounds a i then ret (nth (Z.to_nat i) a dflt)
  else trap (OutOfBounds i).

(** [a[i] = v] *)
Definition store {A} (a : list A) (i : Z) (v : A) : Result (list A) :=
  if in_bounds a i then Ok (update a (Z.to_nat i) v)
  else Fail (OutOfBounds i).

(** ** The game manager, esp32-guessing-game-manager/src/main.cpp *)

Module Manager.

Inductive States : Type := idle | countdown | playing | game_over.

Definition CMD_GAME_START : Z := 1.
Definition CMD_GOOD_GUESS : Z := 2.
Definition CMD_WRONG_GUESS : Z := 3.
Definition CMD_GAME_WON : Z := 4.

Definition ledPins : list Z := [17; 25; 4; 12].
Definition buttonPin : Z := 13.
Definition debounceDelay : Z := 50.
Definition longPressDuration : Z := 2000.
Definition maxSequenceLength : Z := 15.
Definition idleGuess : Z := 255.

Record Globals : Type := mkGlobals {
  state : States;
  difficulty : Z;
  difficultyLocked : bool;
  buttonInter : bool;
  longPressed : bool;
  shortPressed : bool;
  lastDebounceTime : Z;
  buttonPressStart : Z;
  sequence : list Z;
  currentStep : Z;
  guess : Z;
  guessed : bool
}.

Definition set_state v g := mkGlobals v (difficulty g) (difficultyLocked g)
  (buttonInter g) (longPressed g) (shortPressed g) (lastDebounceTime g)
  (buttonPressStart g) (sequence g) (currentStep g) (guess g) (guessed g).
Definition set_difficulty v g := mkGlobals (state g) v (difficultyLocked g)
  (buttonInter g) (longPressed g) (shortPressed g) (lastDebounceTime g)
  (buttonPressStart g) (sequence g) (currentStep g) (guess g) (guessed g).
Definition set_difficultyLocked v g := mkGlobals (state g) (difficulty g) v
  (buttonInter g) (longPressed g) (shortPressed g) (lastDebounceTime g)
  (buttonPressStart g) (sequence g) (currentStep g) (guess g) (guessed g).
Definition set_buttonInter v g := mkGlobals (state g) (difficulty g)
  (difficultyLocked g) v (longPressed g) (shortPressed g)
  (lastDebounceTime g) (buttonPressStart g) (sequence g) (currentStep g)
  (guess g) (guessed g).
Definition set_longPressed v g := mkGlobals (state g) (difficulty g)
  (difficultyLocked g) (buttonInter g) v (shortPressed g)
  (lastDebounceTime g) (buttonPressStart g) (sequence g) (currentStep g)
  (guess g) (guessed g).
Definition set_shortPressed v g := mkGlobals (state g) (difficulty g)
  (difficultyLocked g) (buttonInter g) (longPressed g) v
  (lastDebounceTime g) (buttonPressStart g) (sequence g) (currentStep g)
  (guess g) (guessed g).
Definition set_lastDebounceTime v g := mkGlobals (state g) (difficulty g)
  (difficultyLocked g) (buttonInter g) (longPressed g) (shortPressed g) v
  (buttonPressStart g) (sequence g) (currentStep g) (guess g) (guessed g).
Definition set_buttonPressStart v g := mkGlobals (state g) (difficulty g)
  (difficultyLocked g) (buttonInter g) (longPressed g) (shortPressed g)
  (lastDebounceTime g) v (sequence g) (currentStep g) (guess g) (guessed g).
Definition set_sequence v g := mkGlobals (state g) (difficulty g)
  (difficultyLocked g) (buttonInter g) (longPressed g) (shortPressed g)
  (lastDebounceTime g) (buttonPressStart g) v (currentStep g) (guess g)
  (guessed g).
Definition set_currentStep v g := mkGlobals (state g) (difficulty g)
  (difficultyLocked g) (buttonInter g) (longPressed g) (shortPressed g)
  (lastDebounceTime g) (buttonPressStart g) (sequence g) v (guess g)
  (guessed g).
Definition set_guess v g := mkGlobals (state g) (difficulty g)
  (difficultyLocked g) (buttonInter g) (longPressed g) (shortPressed g)
  (lastDebounceTime g) (buttonPressStart g) (sequence g) (currentStep g) v
  (guessed g).
Definition set_guessed v g := mkGlobals (state g) (difficulty g)
  (difficultyLocked g) (buttonInter g) (longPressed g) (shortPressed g)
  (lastDebounceTime g) (buttonPressStart g) (sequence g) (currentStep g)
  (guess g) v.

(** The globals as the declarations initialise them, with [state] as
    [setup] leaves it. *)
Definition initial : Globals :=
  mkGlobals idle 0 false true false false 0 0
    (repeat 0 (Z.to_nat maxSequenceLength)) 0 0 false.

Definition Sketch := M Globals.

(** [sequence[i] = v] *)
Definition write_sequence (i v : Z) : Sketch unit :=
  fun g =>
    match store (sequence g) i v with
    | Ok a => Ok (tt, set_sequence a g, [])
    | Fail f => Fail f
    end.

(** [sequence[i]] *)
Definition read_sequence (i : Z) : Sketch Z :=
  fun g => load (sequence g) i 0 g.

Definition onDataSent (success : bool) : Sketch unit :=
  emit (Serial_print "Packet Send Status: ") ;;
  emit (Serial_print (if success then "Success" else "Fail")).

Definition displayDifficulty : Sketch unit :=
  for_loop 4 0 (fun i =>
    d <- get difficulty ;;
    emit (digitalWrite (nth (Z.to_nat i) ledPins 0)
            (if Z.land (Z.shiftr d i) 1 =? 0 then LOW else HIGH))).

(** [rnd i] is the raw draw behind the call of [random] at index [i]. *)
Definition generateSequence (rnd : Z -> Z) : Sketch unit :=
  emit (Serial_print "Generating random sequence") ;;
  d <- get difficulty ;;
  for_loop (Z.to_nat (d + 1)) 0 (fun i =>
    write_sequence i (random 1 4 (rnd i))) ;;
  modify (set_currentStep 0).

Definition sendGameStart : Sketch unit :=
  emit (Serial_print "Sending game start command") ;;
  emit (esp_now_send CMD_GAME_START).

(** [len] is the length of the payload the radio hands over. *)
Definition onDataRecv (incomingData : list Z) : Sketch unit :=
  st <- get state ;;
  match st with
  | playing =>
      modify (set_guessed true) ;;
      b <- load incomingData 0 0 ;;
      modify (set_guess b)
  | _ => ret tt
  end.

Definition updateButtonState (now : Z) (buttonState : bool) : Sketch unit :=
  start <- get buttonPressStart ;;
  if buttonState && (0 <? start) then
    (if longPressDuration <=? wrap32 (now - start) then
       modify (set_longPressed true) ;;
       emit (Serial_print "Long press detected!")
     else
       modify (set_shortPressed true) ;;
       emit (Serial_print "Short press detected!")) ;;
    modify (set_buttonPressStart 0)
  else
    modify (set_buttonPressStart (if negb buttonState then now else 0)).

Definition onButtonPress (currentMillis : Z) : Sketch unit :=
  last <- get lastDebounceTime ;;
  if debounceDelay <? wrap32 (currentMillis - last) then
    modify (set_lastDebounceTime currentMillis) ;;
    modify (set_buttonInter true)
  else ret tt.

Definition increaseDifficulty : Sketch unit :=
  d <- get difficulty ;;
  modify (set_difficulty ((d + 1) mod 16)) ;;
  emit (Serial_print "New difficulty: ") ;;
  d' <- get difficulty ;;
  emit (Serial_print_num d') ;;
  displayDifficulty.

Definition treatGuess : Sketch unit :=
  emit (Serial_print "Received guess: ") ;;
  gs <- get guess ;;
  emit (Serial_print_num gs) ;;
  cur <- get currentStep ;;
  sym <- read_sequence cur ;;
  if gs =? sym then
    modify (set_currentStep (wrap8 (cur + 1))) ;;
    cur' <- get currentStep ;;
    d <- get difficulty ;;
    if d <? cur' then
      emit (esp_now_send CMD_GAME_WON) ;;
      modify (set_state game_over)
    else
      emit (esp_now_send CMD_GOOD_GUESS)
  else
    emit (esp_now_send CMD_WRONG_GUESS) ;;
    modify (set_currentStep 0).

Definition alertBlink : Sketch unit :=
  for_loop 3 0 (fun _ =>
    for_loop 4 0 (fun j =>
      emit (digitalWrite (nth (Z.to_nat j) ledPins 0) HIGH)) ;;
    emit (delay 500) ;;
    for_loop 4 0 (fun j =>
      emit (digitalWrite (nth (Z.to_nat j) ledPins 0) LOW)) ;;
    emit (delay 500)).

(** One iteration of [loop]; [now] is what [millis()] returns during it
    and [buttonState] what [digitalRead(buttonPin)] returns. *)
Definition loop (now : Z) (buttonState : bool) (rnd : Z -> Z)
  : Sketch unit :=
  st <- get state ;;
  match st with
  | idle =>
      inter <- get buttonInter ;;
      if inter then
        updateButtonState now buttonState ;;
        lp <- get longPressed ;;
        (if lp then
           generateSequence rnd ;;
           modify (set_state countdown) ;;
           modify (set_longPressed false)
         else
           sp <- get shortPressed ;;
           if sp then
             increaseDifficulty ;;
             modify (set_shortPressed false)
           else ret tt) ;;
        modify (set_buttonInter false)
      else ret tt
  | countdown =>
      alertBlink ;;
      emit (delay 1000) ;;
      sendGameStart ;;
      modify (set_state playing)
  | playing =>
      displayDifficulty ;;
      gd <- get guessed ;;
      if gd then treatGuess else ret tt
  | game_over =>
      alertBlink ;;
      emit (delay 3000) ;;
      modify (set_state idle) ;;
      modify (set_difficultyLocked false)
  end.

(** What can happen to the node: a pass through [loop], or one of the
    three callbacks. *)
Inductive Event : Type :=
| Loop (now : Z) (buttonState : bool) (rnd : Z -> Z)
| ButtonChange (currentMillis : Z)
| DataRecv (incomingData : list Z)
| DataSent (success : bool).

Definition handle (e : Event) : Sketch unit :=
  match e with
  | Loop now buttonState rnd => loop now buttonState rnd
  | ButtonChange t => onButtonPress t
  | DataRecv d => onDataRecv d
  | DataSent ok => onDataSent ok
  end.

Fixpoint run (es : list Event) : Sketch unit :=
  match es with
  | [] => ret tt
  | e :: rest => handle e ;; run rest
  end.

End Manager.

(** ** The other game-manager sketch, src/unnamed/part_000 *)

Module ManagerPart000.

Inductive States : Type := idle | countdown | playing | game_over.

Definition CMD_GAME_START : Z := 1.
Definition CMD_GOOD_GUESS : Z := 2.
Definition CMD_WRONG_GUESS : Z := 3.
Definition CMD_GAME_WON : Z := 4.

Definition ledPins : list Z := [17; 25; 4; 12].
Definition buttonPin : Z := 13.
Definition longPressDuration : Z := 2000.
Definition maxSequenceLength : Z := 15.

Record Globals : Type := mkGlobals {
  state : States;
  difficulty : Z;
  difficultyLocked : bool;
  longPressDetected : bool;
  buttonPressed : bool;
  pressDuration : Z;
  buttonPressStart : Z;
  sequence : list Z;
  currentStep : Z
}.

Definition set_state v g := mkGlobals v (difficulty g) (difficultyLocked g)
  (longPressDetected g) (buttonPressed g) (pressDuration g)
  (buttonPressStart g) (sequence g) (currentStep g).
Definition set_difficulty v g := mkGlobals (state g) v (difficultyLocked g)
  (longPressDetected g) (buttonPressed g) (pressDuration g)
  (buttonPressStart g) (sequence g) (currentStep g).
Definition set_difficultyLocked v g := mkGlobals (state g) (difficulty g) v
  (longPressDetected g) (buttonPressed g) (pressDuration g)
  (buttonPressStart g) (sequence g) (currentStep g).
Definition set_longPressDetected v g := mkGlobals (state g) (difficulty g)
  (difficultyLocked g) v (buttonPressed g) (pressDuration g)
  (buttonPressStart g) (sequence g) (currentStep g).
Definition set_buttonPressed v g := mkGlobals (state g) (difficulty g)
  (difficultyLocked g) (longPressDetected g) v (pressDuration g)
  (buttonPressStart g) (sequence g) (currentStep g).
Definition set_pressDuration v g := mkGlobals (state g) (difficulty g)
  (difficultyLocked g) (longPressDetected g) (buttonPressed g) v
  (buttonPressStart g) (sequence g) (currentStep g).
Definition set_buttonPressStart v g := mkGlobals (state g) (difficulty g)
  (difficultyLocked g) (longPressDetected g) (buttonPressed g)
  (pressDuration g) v (sequence g) (currentStep g).
Definition set_sequence v g := mkGlobals (state g) (difficulty g)
  (difficultyLocked g) (longPressDetected g) (buttonPressed g)
  (pressDuration g) (buttonPressStart g) v (currentStep g).
Definition set_currentStep v g := mkGlobals (state g) (difficulty g)
  (difficultyLocked g) (longPressDetected g) (buttonPressed g)
  (pressDuration g) (buttonPressStart g) (sequence g) v.

Definition initial : Globals :=
  mkGlobals idle 0 false false false 0 0
    (repeat 0 (Z.to_nat maxSequenceLength)) 0.

Definition Sketch := M Globals.

Definition write_sequence (i v : Z) : Sketch unit :=
  fun g =>
    match store (sequence g) i v with
    | Ok a => Ok (tt, set_sequence a g, [])
    | Fail f => Fail f
    end.

Definition read_sequence (i : Z) : Sketch Z :=
  fun g => load (sequence g) i 0 g.

Definition onDataSent (success : bool) : Sketch unit :=
  emit (Serial_print "Packet Send Status: ") ;;
  emit (Serial_print (if success then "Success" else "Fail")).

Definition displayDifficulty : Sketch unit :=
  for_loop 4 0 (fun i =>
    d <- get difficulty ;;
    emit (digitalWrite (nth (Z.to_nat i) ledPins 0)
            (if Z.land (Z.shiftr d i) 1 =? 0 then LOW else HIGH))).

Definition generateSequence (rnd : Z -> Z) : Sketch unit :=
  emit (Serial_print "Generating random sequence") ;;
  d <- get difficulty ;;
  for_loop (Z.to_nat (d + 1)) 0 (fun i =>
    write_sequence i (random 1 4 (rnd i))) ;;
  modify (set_currentStep 0).

Definition sendGameStart : Sketch unit :=
  emit (Serial_print "Sending game start command") ;;
  emit (esp_now_send CMD_GAME_START).

Definition onDataRecv (incomingData : list Z) : Sketch unit :=
  let len := Z.of_nat (List.length incomingData) in
  st <- get state ;;
  match st with
  | playing =>
      if negb (len =? 1) then ret tt
      else
        gs <- load incomingData 0 0 ;;
        emit (Serial_print "Received guess: ") ;;
        emit (Serial_print_num gs) ;;
        cur <- get currentStep ;;
        sym <- read_sequence cur ;;
        if gs =? sym then
          modify (set_currentStep (wrap8 (cur + 1))) ;;
          cur' <- get currentStep ;;
          d <- get difficulty ;;
          if d <? cur' then
            emit (esp_now_send CMD_GAME_WON) ;;
            modify (set_state game_over)
          else
            emit (esp_now_send CMD_GOOD_GUESS)
        else
          emit (esp_now_send CMD_WRONG_GUESS) ;;
          modify (set_currentStep 0)
  | _ => ret tt
  end.

(** The interrupt routine; [level] is what [digitalRead(buttonPin)]
    returns in it and [now] what [millis()] returns. *)
Definition onButtonPress (now : Z) (level : bool) : Sketch unit :=
  if Bool.eqb level LOW then
    modify (set_buttonPressed true) ;;
    modify (set_buttonPressStart now)
  else
    start <- get buttonPressStart ;;
    modify (set_pressDuration (wrap32 (now - start))) ;;
    modify (set_buttonPressed false).

Definition loop (rnd : Z -> Z) : Sketch unit :=
  pressed <- get buttonPressed ;;
  dur <- get pressDuration ;;
  (if negb pressed && (0 <? dur) then
     (if longPressDuration <=? dur then
        modify (set_difficultyLocked true) ;;
        modify (set_longPressDetected true) ;;
        emit (Serial_print "Long press detected, difficulty locked")
      else
        locked <- get difficultyLocked ;;
        if negb locked then
          d <- get difficulty ;;
          modify (set_difficulty ((d + 1) mod 16)) ;;
          emit (Serial_print "Button short press, new difficulty: ") ;;
          d' <- get difficulty ;;
          emit (Serial_print_num d') ;;
          displayDifficulty
        else ret tt) ;;
     modify (set_pressDuration 0)
   else ret tt) ;;
  st <- get state ;;
  match st with
  | idle =>
      lp <- get longPressDetected ;;
      if lp then
        generateSequence rnd ;;
        sendGameStart ;;
        modify (set_state countdown) ;;
        modify (set_longPressDetected false)
      else ret tt
  | countdown =>
      for_loop 3 0 (fun _ =>
        for_loop 4 0 (fun j =>
          emit (digitalWrite (nth (Z.to_nat j) ledPins 0) HIGH)) ;;
        emit (delay 200) ;;
        for_loop 4 0 (fun j =>
          emit (digitalWrite (nth (Z.to_nat j) ledPins 0) LOW)) ;;
        emit (delay 200)) ;;
      modify (set_state playing)
  | playing => displayDifficulty
  | game_over =>
      emit (delay 3000) ;;
      modify (set_state idle) ;;
      modify (set_difficultyLocked false) ;;
      displayDifficulty
  end.

Inductive Event : Type :=
| Loop (rnd : Z -> Z)
| ButtonChange (now : Z) (level : bool)
| DataRecv (incomingData : list Z)
| DataSent (success : bool).

Definition handle (e : Event) : Sketch unit :=
  match e with
  | Loop rnd => loop rnd
  | ButtonChange now level => onButtonPress now level
  | DataRecv d => onDataRecv d
  | DataSent ok => onDataSent ok
  end.

Fixpoint run (es : list Event) : Sketch unit :=
  match es with
  | [] => ret tt
  | e :: rest => handle e ;; run rest
  end.

End ManagerPart000.

(** ** The remote, esp32-guessing-game-remote/src/main.cpp *)

Module Remote.

Inductive States : Type :=
  ready | playing | guessed | correct | wrong | won.

Definition CMD_GAME_START : Z := 1.
Definition CMD_GOOD_GUESS : Z := 2.
Definition CMD_WRONG_GUESS : Z := 3.
Definition CMD_GAME_WON : Z := 4.

Definition buttonsCount : Z := 3.
Definition buttonPins : list Z := [13; 14; 26].
Definition debounceDelay : Z := 20.
Definition redLed : Z := 12.
Definition greenLed : Z := 4.

Record Globals : Type := mkGlobals {
  lastSentMessage : Z;
  state : States;
  startSignal : bool;
  rightGuess : bool;
  wrongGuess : bool;
  wonSignal : bool;
  buttonPressed : list bool;
  lastDebounceTime : list Z;
  lastStateUpdate : Z;
  lastBreatheUpdate : Z;
  lastBlinkUpdate : Z;
  locked : bool
}.

Definition set_lastSentMessage v g := mkGlobals v (state g) (startSignal g)
  (rightGuess g) (wrongGuess g) (wonSignal g) (buttonPressed g)
  (lastDebounceTime g) (lastStateUpdate g) (lastBreatheUpdate g)
  (lastBlinkUpdate g) (locked g).
Definition set_state v g := mkGlobals (lastSentMessage g) v (startSignal g)
  (rightGuess g) (wrongGuess g) (wonSignal g) (buttonPressed g)
  (lastDebounceTime g) (lastStateUpdate g) (lastBreatheUpdate g)
  (lastBlinkUpdate g) (locked g).
Definition set_startSignal v g := mkGlobals (lastSentMessage g) (state g) v
  (rightGuess g) (wrongGuess g) (wonSignal g) (buttonPressed g)
  (lastDebounceTime g) (lastStateUpdate g) (lastBreatheUpdate g)
  (lastBlinkUpdate g) (locked g).
Definition set_rightGuess v g := mkGlobals (lastSentMessage g) (state g)
  (startSignal g) v (wrongGuess g) (wonSignal g) (buttonPressed g)
  (lastDebounceTime g) (lastStateUpdate g) (lastBreatheUpdate g)
  (lastBlinkUpdate g) (locked g).
Definition set_wrongGuess v g := mkGlobals (lastSentMessage g) (state g)
  (startSignal g) (rightGuess g) v (wonSignal g) (buttonPressed g)
  (lastDebounceTime g) (lastStateUpdate g) (lastBreatheUpdate g)
  (lastBlinkUpdate g) (locked g).
Definition set_wonSignal v g := mkGlobals (lastSentMessage g) (state g)
  (startSignal g) (rightGuess g) (wrongGuess g) v (buttonPressed g)
  (lastDebounceTime g) (lastStateUpdate g) (lastBreatheUpdate g)
  (lastBlinkUpdate g) (locked g).
Definition set_buttonPressed v g := mkGlobals (lastSentMessage g) (state g)
  (startSignal g) (rightGuess g) (wrongGuess g) (wonSignal g) v
  (lastDebounceTime g) (lastStateUpdate g) (lastBreatheUpdate g)
  (lastBlinkUpdate g) (locked g).
Definition set_lastDebounceTime v g := mkGlobals (lastSentMessage g) (state
  g) (startSignal g) (rightGuess g) (wrongGuess g) (wonSignal g)
  (buttonPressed g) v (lastStateUpdate g) (lastBreatheUpdate g)
  (lastBlinkUpdate g) (locked g).
Definition set_lastStateUpdate v g := mkGlobals (lastSentMessage g) (state
  g) (startSignal g) (rightGuess g) (wrongGuess g) (wonSignal g)
  (buttonPressed g) (lastDebounceTime g) v (lastBreatheUpdate g)
  (lastBlinkUpdate g) (locked g).
Definition set_lastBreatheUpdate v g := mkGlobals (lastSentMessage g) (state
  g) (startSignal g) (rightGuess g) (wrongGuess g) (wonSignal g)
  (buttonPressed g) (lastDebounceTime g) (lastStateUpdate g) v
  (lastBlinkUpdate g) (locked g).
Definition set_lastBlinkUpdate v g := mkGlobals (lastSentMessage g) (state
  g) (startSignal g) (rightGuess g) (wrongGuess g) (wonSignal g)
  (buttonPressed g) (lastDebounceTime g) (lastStateUpdate g)
  (lastBreatheUpdate g) v (locked g).
Definition set_locked v g := mkGlobals (lastSentMessage g) (state g)
  (startSignal g) (rightGuess g) (wrongGuess g) (wonSignal g) (buttonPressed
  g) (lastDebounceTime g) (lastStateUpdate g) (lastBreatheUpdate g)
  (lastBlinkUpdate g) v.

Definition initial : Globals :=
  mkGlobals 0 ready false false false false
    [false; false; false] [0; 0; 0] 0 0 0 false.

Definition Sketch := M Globals.

Definition read_buttonPressed (i : Z) : Sketch bool :=
  fun g => load (buttonPressed g) i false g.
Definition write_buttonPressed (i : Z) (v : bool) : Sketch unit :=
  fun g =>
    match store (buttonPressed g) i v with
    | Ok a => Ok (tt, set_buttonPressed a g, [])
    | Fail f => Fail f
    end.
Definition read_lastDebounceTime (i : Z) : Sketch Z :=
  fun g => load (lastDebounceTime g) i 0 g.
Definition write_lastDebounceTime (i v : Z) : Sketch unit :=
  fun g =>
    match store (lastDebounceTime g) i v with
    | Ok a => Ok (tt, set_lastDebounceTime a g, [])
    | Fail f => Fail f
    end.

(** [while (status != ESP_NOW_SEND_SUCCESS && retries++ < 5) { ... }]
    The right operand, with its increment of the [uint8_t] counter, is
    evaluated only when the left one holds.  Returns [retries] as the loop
    leaves it. *)
Fixpoint onDataSent_while (fuel : nat) (success : bool) (retries : Z)
  : Sketch Z :=
  match fuel with
  | O => trap OutOfFuel
  | S n =>
      if success then ret retries
      else
        let incremented := wrap8 (retries + 1) in
        if retries <? 5 then
          msg <- get lastSentMessage ;;
          emit (esp_now_send msg) ;;
          emit (delay 100) ;;
          onDataSent_while n success incremented
        else ret incremented
  end.

Definition onDataSent (success : bool) : Sketch unit :=
  emit (Serial_print "Last Packet Send Status: ") ;;
  emit (Serial_print (if success then "Success" else "Fail")) ;;
  retries <- onDataSent_while 256 success 0 ;;
  if retries =? 5 then
    emit (Serial_print "Failed to send after 5 attempts")
  else ret tt.

Definition onDataRecv (incomingData : list Z) : Sketch unit :=
  let len := Z.of_nat (List.length incomingData) in
  lk <- get locked ;;
  if negb lk then
    if negb (len =? 1) then ret tt
    else
      command <- load incomingData 0 0 ;;
      if command =? CMD_GAME_START then modify (set_startSignal true)
      else if command =? CMD_GOOD_GUESS then modify (set_rightGuess true)
      else if command =? CMD_WRONG_GUESS then modify (set_wrongGuess true)
      else if command =? CMD_GAME_WON then modify (set_wonSignal true)
      else ret tt
  else ret tt.

Definition onButtonPress (buttonIndex : Z) (currentTime : Z)
  : Sketch unit :=
  last <- read_lastDebounceTime buttonIndex ;;
  if debounceDelay <? wrap32 (currentTime - last) then
    write_buttonPressed buttonIndex true ;;
    write_lastDebounceTime buttonIndex currentTime
  else ret tt.

(** [queued] tells whether [esp_now_send] returns [ESP_OK]. *)
Definition sendButtonPress (buttonIndex : Z) (queued : bool)
  : Sketch bool :=
  let buttonCode := wrap8 (buttonIndex + 1) in
  modify (set_lastSentMessage buttonCode) ;;
  emit (esp_now_send buttonCode) ;;
  if queued then
    modify (set_state guessed) ;;
    ret true
  else
    emit (Serial_print "Failed to send button press.") ;;
    ret false.

(** The two intensities are floating-point sines of the clock; only the
    pins written are recorded. *)
Definition breatheLeds (now : Z) : Sketch unit :=
  last <- get lastBreatheUpdate ;;
  if 20 <=? wrap32 (now - last) then
    emit (analogWrite redLed) ;;
    emit (analogWrite greenLed) ;;
    modify (set_lastBreatheUpdate now)
  else ret tt.

(** One iteration of [loop]; [now] is what [millis()] returns during it,
    [queued i] whether the transmission for button [i] is accepted. *)
Definition loop (now : Z) (queued : Z -> bool) : Sketch unit :=
  st <- get state ;;
  match st with
  | ready =>
      modify (set_locked false) ;;
      breatheLeds now ;;
      ss <- get startSignal ;;
      if ss then
        emit (Serial_print "The game starts !") ;;
        modify (set_startSignal false) ;;
        modify (set_state playing) ;;
        modify (set_lastStateUpdate now)
      else ret tt
  | playing =>
      modify (set_locked false) ;;
      for_loop (Z.to_nat buttonsCount) 0 (fun i =>
        pressed <- read_buttonPressed i ;;
        if pressed then
          write_buttonPressed i false ;;
          sendSuccess <- sendButtonPress i (queued i) ;;
          if sendSuccess then
            emit (Serial_print "Sent pressed signal for button ") ;;
            emit (Serial_print_num i) ;;
            modify (set_state guessed) ;;
            modify (set_lastStateUpdate now)
          else ret tt
        else ret tt)
  | guessed =>
      ws <- get wonSignal ;;
      if ws then
        modify (set_wonSignal false) ;;
        emit (Serial_print "Game won !") ;;
        modify (set_state won) ;;
        modify (set_lastStateUpdate now) ;;
        modify (set_locked true)
      else
        rg <- get rightGuess ;;
        if rg then
          modify (set_rightGuess false) ;;
          emit (Serial_print "Right guess !") ;;
          modify (set_state correct) ;;
          modify (set_lastStateUpdate now) ;;
          modify (set_locked true)
        else
          wg <- get wrongGuess ;;
          if wg then
            modify (set_wrongGuess false) ;;
            emit (Serial_print "Wrong guess !") ;;
            modify (set_state wrong) ;;
            modify (set_lastStateUpdate now) ;;
            modify (set_locked true)
          else ret tt
  | correct =>
      emit (digitalWrite greenLed HIGH) ;;
      last <- get lastStateUpdate ;;
      if 2000 <? wrap32 (now - last) then
        modify (set_state playing) ;;
        modify (set_lastStateUpdate now) ;;
        emit (digitalWrite greenLed LOW) ;;
        modify (set_locked false)
      else ret tt
  | wrong =>
      emit (digitalWrite redLed HIGH) ;;
      last <- get lastStateUpdate ;;
      if 2000 <? wrap32 (now - last) then
        modify (set_state playing) ;;
        modify (set_lastStateUpdate now) ;;
        emit (digitalWrite redLed LOW) ;;
        modify (set_locked false)
      else ret tt
  | won =>
      emit (digitalWrite redLed
              (if now mod 2000 <? 1000 then HIGH else LOW)) ;;
      emit (digitalWrite greenLed
              (if now mod 2000 <? 1000 then HIGH else LOW)) ;;
      last <- get lastStateUpdate ;;
      if 10000 <? wrap32 (now - last) then
        emit (Serial_print "Waiting for a new game start signal.") ;;
        modify (set_state ready) ;;
        emit (digitalWrite greenLed LOW) ;;
        emit (digitalWrite redLed LOW) ;;
        modify (set_locked false)
      else ret tt
  end.

Inductive Event : Type :=
| Loop (now : Z) (queued : Z -> bool)
| ButtonFall (buttonIndex : Z) (currentTime : Z)
| DataRecv (incomingData : list Z)
| DataSent (success : bool).

Definition handle (e : Event) : Sketch unit :=
  match e with
  | Loop now queued => loop now queued
  | ButtonFall i t => onButtonPress i t
  | DataRecv d => onDataRecv d
  | DataSent ok => onDataSent ok
  end.

Fixpoint run (es : list Event) : Sketch unit :=
  match es with
  | [] => ret tt
  | e :: rest => handle e ;; run rest
  end.

End Remote.

(** ** The other remote sketch, src/unnamed/part_001 *)

Module RemotePart001.

Inductive States : Type :=
  ready | playing | guessed | correct | wrong | won.

Definition CMD_GAME_START : Z := 1.
Definition CMD_GOOD_GUESS : Z := 2.
Definition CMD_WRONG_GUESS : Z := 3.
Definition CMD_GAME_WON : Z := 4.
Definition CMD_CONFIRM : Z := 5.

Definition buttonsCount : Z := 3.
Definition buttonPins : list Z := [13; 14; 26].
Definition debounceDelay : Z := 20.
Definition redLed : Z := 12.
Definition greenLed : Z := 4.

Record Globals : Type := mkGlobals {
  lastSentMessage : Z;
  state : States;
  buttonPressed : list bool;
  lastDebounceTime : list Z;
  lastStateUpdate : Z;
  lastBreatheUpdate : Z;
  lastBlinkUpdate : Z;
  locked : bool
}.

Definition set_lastSentMessage v g := mkGlobals v (state g) (buttonPressed
  g) (lastDebounceTime g) (lastStateUpdate g) (lastBreatheUpdate g)
  (lastBlinkUpdate g) (locked g).
Definition set_state v g := mkGlobals (lastSentMessage g) v (buttonPressed
  g) (lastDebounceTime g) (lastStateUpdate g) (lastBreatheUpdate g)
  (lastBlinkUpdate g) (locked g).
Definition set_buttonPressed v g := mkGlobals (lastSentMessage g) (state g)
  v (lastDebounceTime g) (lastStateUpdate g) (lastBreatheUpdate g)
  (lastBlinkUpdate g) (locked g).
Definition set_lastDebounceTime v g := mkGlobals (lastSentMessage g) (state
  g) (buttonPressed g) v (lastStateUpdate g) (lastBreatheUpdate g)
  (lastBlinkUpdate g) (locked g).
Definition set_lastStateUpdate v g := mkGlobals (lastSentMessage g) (state
  g) (buttonPressed g) (lastDebounceTime g) v (lastBreatheUpdate g)
  (lastBlinkUpdate g) (locked g).
Definition set_lastBreatheUpdate v g := mkGlobals (lastSentMessage g) (state
  g) (buttonPressed g) (lastDebounceTime g) (lastStateUpdate g) v
  (lastBlinkUpdate g) (locked g).
Definition set_lastBlinkUpdate v g := mkGlobals (lastSentMessage g) (state
  g) (buttonPressed g) (lastDebounceTime g) (lastStateUpdate g)
  (lastBreatheUpdate g) v (locked g).
Definition set_locked v g := mkGlobals (lastSentMessage g) (state g)
  (buttonPressed g) (lastDebounceTime g) (lastStateUpdate g)
  (lastBreatheUpdate g) (lastBlinkUpdate g) v.

Definition initial : Globals :=
  mkGlobals 0 ready [false; false; false] [0; 0; 0] 0 0 0 false.

Definition Sketch := M Globals.

Definition read_buttonPressed (i : Z) : Sketch bool :=
  fun g => load (buttonPressed g) i false g.
Definition write_buttonPressed (i : Z) (v : bool) : Sketch unit :=
  fun g =>
    match store (buttonPressed g) i v with
    | Ok a => Ok (tt, set_buttonPressed a g, [])
    | Fail f => Fail f
    end.
Definition read_lastDebounceTime (i : Z) : Sketch Z :=
  fun g => load (lastDebounceTime g) i 0 g.
Definition write_lastDebounceTime (i v : Z) : Sketch unit :=
  fun g =>
    match store (lastDebounceTime g) i v with
    | Ok a => Ok (tt, set_lastDebounceTime a g, [])
    | Fail f => Fail f
    end.

(** The same [while] loop as in [Remote.onDataSent_while]. *)
Fixpoint onDataSent_while (fuel : nat) (success : bool) (retries : Z)
  : Sketch Z :=
  match fuel with
  | O => trap OutOfFuel
  | S n =>
      if success then ret retries
      else
        let incremented := wrap8 (retries + 1) in
        if retries <? 5 then
          msg <- get lastSentMessage ;;
          emit (esp_now_send msg) ;;
          emit (delay 100) ;;
          onDataSent_while n success incremented
        else ret incremented
  end.

Definition onDataSent (success : bool) : Sketch unit :=
  emit (Serial_print "Last Packet Send Status: ") ;;
  emit (Serial_print (if success then "Success" else "Fail")) ;;
  retries <- onDataSent_while 256 success 0 ;;
  if retries =? 5 then
    emit (Serial_print "Failed to send after 5 attempts")
  else ret tt.

Definition onButtonPress (buttonIndex : Z) (currentTime : Z)
  : Sketch unit :=
  last <- read_lastDebounceTime buttonIndex ;;
  if debounceDelay <? wrap32 (currentTime - last) then
    write_buttonPressed buttonIndex true ;;
    write_lastDebounceTime buttonIndex currentTime
  else ret tt.

Definition sendButtonPress (buttonIndex : Z) (queued : bool)
  : Sketch unit :=
  let buttonCode := wrap8 (buttonIndex + 1) in
  modify (set_lastSentMessage buttonCode) ;;
  emit (esp_now_send buttonCode) ;;
  if queued then modify (set_state guessed)
  else emit (Serial_print "Failed to send button press.").

Definition breatheLeds (now : Z) : Sketch unit :=
  last <- get lastBreatheUpdate ;;
  if 20 <=? wrap32 (now - last) then
    emit (analogWrite redLed) ;;
    emit (analogWrite greenLed) ;;
    modify (set_lastBreatheUpdate now)
  else ret tt.

Definition loop (now : Z) (queued : Z -> bool) : Sketch unit :=
  st <- get state ;;
  match st with
  | ready => breatheLeds now
  | playing =>
      for_loop (Z.to_nat buttonsCount) 0 (fun i =>
        pressed <- read_buttonPressed i ;;
        if pressed then
          write_buttonPressed i false ;;
          sendButtonPress i (queued i)
        else ret tt)
  | guessed => ret tt
  | correct =>
      emit (digitalWrite greenLed HIGH) ;;
      last <- get lastStateUpdate ;;
      if 2000 <? wrap32 (now - last) then
        modify (set_state playing) ;;
        emit (digitalWrite greenLed LOW)
      else ret tt
  | wrong =>
      emit (digitalWrite redLed HIGH) ;;
      last <- get lastStateUpdate ;;
      if 2000 <? wrap32 (now - last) then
        modify (set_state playing) ;;
        emit (digitalWrite redLed LOW) ;;
        modify (set_locked false)
      else ret tt
  | won =>
      emit (digitalWrite redLed
              (if now mod 2000 <? 1000 then HIGH else LOW)) ;;
      emit (digitalWrite greenLed
              (if now mod 2000 <? 1000 then HIGH else LOW)) ;;
      last <- get lastStateUpdate ;;
      if 10000 <? wrap32 (now - last) then
        modify (set_state ready) ;;
        emit (digitalWrite greenLed LOW) ;;
        emit (digitalWrite redLed LOW) ;;
        modify (set_locked false)
      else ret tt
  end.

Definition onDataRecv (now : Z) (incomingData : list Z) : Sketch unit :=
  let len := Z.of_nat (List.length incomingData) in
  lk <- get locked ;;
  if negb lk then
    if negb (len =? 1) then ret tt
    else
      command <- load incomingData 0 0 ;;
      if command =? CMD_GAME_START then modify (set_state playing)
      else if command =? CMD_GOOD_GUESS then
        modify (set_state correct) ;;
        modify (set_lastStateUpdate now) ;;
        modify (set_locked true)
      else if command =? CMD_WRONG_GUESS then
        modify (set_state wrong) ;;
        modify (set_lastStateUpdate now) ;;
        modify (set_locked true)
      else if command =? CMD_GAME_WON then
        modify (set_state won) ;;
        modify (set_lastStateUpdate now) ;;
        modify (set_locked true)
      else if command =? CMD_CONFIRM then
        emit (Serial_print "Command confirmed by Game Manager.")
      else ret tt
  else ret tt.

Inductive Event : Type :=
| Loop (now : Z) (queued : Z -> bool)
| ButtonFall (buttonIndex : Z) (currentTime : Z)
| DataRecv (now : Z) (incomingData : list Z)
| DataSent (success : bool).

Definition handle (e : Event) : Sketch unit :=
  match e with
  | Loop now queued => loop now queued
  | ButtonFall i t => onButtonPress i t
  | DataRecv now d => onDataRecv now d
  | DataSent ok => onDataSent ok
  end.

Fixpoint run (es : list Event) : Sketch unit :=
  match es with
  | [] => ret tt
  | e :: rest => handle e ;; run rest
  end.

End RemotePart001.

(** ** Observations and scenarios *)

(** The bytes handed to the radio, in order. *)
Fixpoint sent (o : list Effect) : list Z :=
  match o with
  | [] => []
  | esp_now_send b :: rest => b :: sent rest
  | _ :: rest => sent rest
  end.

(** The lines written to the serial log, in order. *)
Fixpoint logged (o : list Effect) : list string :=
  match o with
  | [] => []
  | Serial_print s :: rest => s :: logged rest
  | _ :: rest => logged rest
  end.

(** The pauses taken, in order. *)
Fixpoint delays (o : list Effect) : list Z :=
  match o with
  | [] => []
  | delay ms :: rest => ms :: delays rest
  | _ :: rest => delays rest
  end.

(** A game symbol. *)
Definition symbol (s : Z) : Prop := s = 1 \/ s = 2 \/ s = 3.

(** The indices [from], [from + 1], ... of a [for] loop of [trips] rounds. *)
Fixpoint indices (trips : nat) (from : Z) : list Z :=
  match trips with
  | O => []
  | S n => from :: indices n (from + 1)
  end.

Module ManagerScenario.
Import Manager.

(** The button goes down at [t] and comes up [held] ms later; [loop] runs
    right after each edge. *)
Definition press (rnd : Z -> Z) (held t : Z) : list Event :=
  [ ButtonChange t; Loop t LOW rnd;
    ButtonChange (t + held); Loop (t + held) HIGH rnd ].

(** Fifteen short presses, one a second... *)
Definition reach_top_difficulty (rnd : Z -> Z) : list Event :=
  flat_map (press rnd 100) (map (fun k => 1000 * k) (indices 15 1)).

(** ... then a press of two seconds. *)
Definition start_at_top_difficulty (rnd : Z -> Z) : list Event :=
  reach_top_difficulty rnd ++ press rnd 2000 20000.

(** Playing a three-symbol game whose secret is 1, 1, 1. *)
Definition playing_111 : Globals :=
  mkGlobals playing 2 false false false false 0 0
    [1; 1; 1; 0; 0; 0; 0; 0; 0; 0; 0; 0; 0; 0; 0] 0 0 false.

(** Playing a one-symbol game whose secret is 1. *)
Definition playing_1 : Globals :=
  mkGlobals playing 0 false false false false 0 0
    [1; 0; 0; 0; 0; 0; 0; 0; 0; 0; 0; 0; 0; 0; 0] 0 0 false.

(** The globals with [difficulty] at its top value, array untouched. *)
Definition top_difficulty : Globals := set_difficulty 15 initial.

(** The button was seen going down at time 1000; no press is classified
    yet. *)
Definition button_down : Globals :=
  mkGlobals idle 0 false false false false 1000 1000
    (repeat 0 (Z.to_nat maxSequenceLength)) 0 0 false.

(** One guess arrives while [playing_111] is being played, and [loop] runs
    three times. *)
Definition one_guess_three_passes (b : Z) (rnd : Z -> Z) : list Event :=
  [ DataRecv [b]; Loop 0 HIGH rnd; Loop 1 HIGH rnd; Loop 2 HIGH rnd ].

(** [playing_111] with a guess already received. *)
Definition guess_received : Globals :=
  set_guess 1 (set_guessed true playing_111).

(** A payload of two bytes arrives while [playing_1] is being played, and
    [loop] runs once. *)
Definition two_byte_payload (rnd : Z -> Z) : list Event :=
  [ DataRecv [1; 99]; Loop 0 HIGH rnd ].
End ManagerScenario.

Module ManagerPart000Scenario.
Import ManagerPart000.

(** The raw draws of the pseudo-random source used in the scenarios. *)
Definition draws : Z -> Z := fun i => i.

(** The button goes down at [t] and comes up [held] ms later; [loop] runs
    after the release. *)
Definition press (rnd : Z -> Z) (held t : Z) : list Event :=
  [ ButtonChange t LOW; ButtonChange (t + held) HIGH; Loop rnd ].

(** Fifteen short presses, one a second, then a press of two seconds. *)
Definition start_at_top_difficulty (rnd : Z -> Z) : list Event :=
  flat_map (press rnd 100) (map (fun k => 1000 * k) (indices 15 1))
  ++ press rnd 2000 20000.

(** A game at difficulty 0 is started by a long press; during it the
    button is held for two seconds once more; the player then wins.  After
    [game_over] the pending long press starts a second game, and a short
    press arrives while that game is being played. *)
Definition second_game (rnd : Z -> Z) : list Event :=
  press rnd 2000 1000                       (* idle -> countdown *)
  ++ [ Loop rnd ]                           (* countdown -> playing *)
  ++ [ ButtonChange 5000 LOW; ButtonChange 7000 HIGH; Loop rnd ]
  ++ [ DataRecv [random 1 4 (rnd 0)] ]      (* the secret: game_over *)
  ++ [ Loop rnd ]                           (* game_over -> idle *)
  ++ [ Loop rnd ]                           (* idle -> countdown *)
  ++ [ Loop rnd ].                          (* countdown -> playing *)

(** The globals once the second game is being played, and after the short
    press made during it. *)
Definition second_game_playing : Globals :=
  mkGlobals playing 0 false false false 0 5000
    [1; 0; 0; 0; 0; 0; 0; 0; 0; 0; 0; 0; 0; 0; 0] 0.
Definition after_short_press : Globals :=
  mkGlobals playing 1 false false false 0 20000
    [1; 0; 0; 0; 0; 0; 0; 0; 0; 0; 0; 0; 0; 0; 0] 0.

(** Playing a three-symbol game whose secret is 1, 1, 1. *)
Definition playing_111 : Globals :=
  mkGlobals playing 2 true false false 0 0
    [1; 1; 1; 0; 0; 0; 0; 0; 0; 0; 0; 0; 0; 0; 0] 0.
End ManagerPart000Scenario.

Module RemotePart001Scenario.
Import RemotePart001.

(** Showing the green LED for a right guess since time 0, commands
    locked out. *)
Definition showing_correct : Globals :=
  mkGlobals 1 correct [false; false; false] [0; 0; 0] 0 0 0 true.
End RemotePart001Scenario.

Module RemoteScenario.
Import Remote.

(** In the timed display [st] entered at time 0, commands locked out. *)
Definition showing (st : States) : Globals :=
  mkGlobals 1 st false false false false
    [false; false; false] [0; 0; 0] 0 0 0 true.
End RemoteScenario.

(** ** Notions used in the statements *)

(** The array after the rounds [i], [i + 1], ... of the filling loop. *)
Fixpoint filled (rnd : Z -> Z) (trips : nat) (i : Z) (a : list Z) : list Z :=
  match trips with
  | O => a
  | S n => filled rnd n (i + 1) (update a (Z.to_nat i) (random 1 4 (rnd i)))
  end.

(** One round of the filling loop of [generateSequence]. *)
Definition Manager_fill_round (rnd : Z -> Z) (i : Z) : Manager.Sketch unit :=
  Manager.write_sequence i (random 1 4 (rnd i)).

(** A live sequence: the node is playing, the array has its declared size,
    and the cursor points at one of the [difficulty + 1] symbols of the game,
    at a cell of the array. *)
Definition Manager_live (g : Manager.Globals) : Prop :=
  Manager.state g = Manager.playing /\
  List.length (Manager.sequence g) = Z.to_nat Manager.maxSequenceLength /\
  Manager.currentStep g < Manager.maxSequenceLength /\
  0 <= Manager.currentStep g <= Manager.difficulty g.

Definition ManagerPart000_live (g : ManagerPart000.Globals) : Prop :=
  ManagerPart000.state g = ManagerPart000.playing /\
  List.length (ManagerPart000.sequence g) =
    Z.to_nat ManagerPart000.maxSequenceLength /\
  ManagerPart000.currentStep g < ManagerPart000.maxSequenceLength /\
  0 <= ManagerPart000.currentStep g <= ManagerPart000.difficulty g.

(** State, cursor and transmitted bytes an action ends with. *)
Definition Manager_outcome
  (r : Result (unit * Manager.Globals * list Effect))
  : option (Manager.States * Z * list Z) :=
  match r with
  | Ok (_, g, o) => Some (Manager.state g, Manager.currentStep g, sent o)
  | Fail _ => None
  end.

Definition ManagerPart000_outcome
  (r : Result (unit * ManagerPart000.Globals * list Effect))
  : option (ManagerPart000.States * Z * list Z) :=
  match r with
  | Ok (_, g, o) =>
      Some (ManagerPart000.state g, ManagerPart000.currentStep g, sent o)
  | Fail _ => None
  end.

(** How a press of the manager's button is classified. *)
Inductive Press : Type := short_press | long_press.

(** The classifications [updateButtonState] reports in [o], in order: it
    writes one of these two lines where it raises [longPressed] or
    [shortPressed], and nowhere else. *)
Fixpoint Manager_classified (o : list Effect) : list Press :=
  match o with
  | [] => []
  | Serial_print s :: rest =>
      if String.eqb s "Long press detected!"
      then long_press :: Manager_classified rest
      else if String.eqb s "Short press detected!"
      then short_press :: Manager_classified rest
      else Manager_classified rest
  | _ :: rest => Manager_classified rest
  end.




Module ManagerCycleScenario.
Import Manager.

Definition draws : Z -> Z := fun i => i.

(** From power-on: a one-symbol game is started by a long press and won by
    the first guess. *)
Definition one_game : list Event :=
  ManagerScenario.press draws 2000 1000
  ++ [ Loop 3000 HIGH draws;               (* countdown -> playing *)
       DataRecv [1]; Loop 7000 HIGH draws  (* the secret: game_over *) ].

(** The globals this leaves. *)
Definition in_game_over : Globals :=
  mkGlobals game_over 0 false false false false 3000 0
    [1; 0; 0; 0; 0; 0; 0; 0; 0; 0; 0; 0; 0; 0; 0] 1 1 true.


(** Idle, the last transition accepted at 1000 and consumed. *)
Definition idle_after_release : Globals :=
  mkGlobals idle 0 false false false false 1000 0
    (repeat 0 (Z.to_nat maxSequenceLength)) 0 0 false.

(** The button goes down again 40 ms after that transition and is held for
    three seconds. *)
Definition press_inside_the_window : list Event :=
  [ ButtonChange 1040; Loop 1040 LOW draws;
    ButtonChange 4040; Loop 4040 HIGH draws ].
End ManagerCycleScenario.

(** ** Notions used in the further properties *)

(** The level of a pin after the writes in [o], from the level [current]
    it had before. *)
Fixpoint level_after (pin : Z) (current : bool) (o : list Effect) : bool :=
  match o with
  | [] => current
  | digitalWrite p lvl :: rest =>
      level_after pin (if p =? pin then lvl else current) rest
  | _ :: rest => level_after pin current rest
  end.
Definition level_of (pin : Z) (o : list Effect) : bool :=
  level_after pin LOW o.

(** The number a row of LEDs shows after [o]: the LED on the [i]-th pin of
    [pins] weighs [2 ^ i]. *)
Fixpoint shown_from (i : Z) (pins : list Z) (o : list Effect) : Z :=
  match pins with
  | [] => 0
  | pin :: rest =>
      (if level_of pin o then 2 ^ i else 0) + shown_from (i + 1) rest o
  end.
Definition shown (pins : list Z) (o : list Effect) : Z := shown_from 0 pins o.

(** [n] calls of [increaseDifficulty] in a row. *)
Definition Manager_increase_times (n : nat) : Manager.Sketch unit :=
  for_loop n 0 (fun _ => Manager.increaseDifficulty).

(** What holds of the manager's globals at any time after power-on. *)
Definition Manager_inv (g : Manager.Globals) : Prop :=
  0 <= Manager.difficulty g <= 15 /\
  List.length (Manager.sequence g) = Z.to_nat Manager.maxSequenceLength /\
  (Manager.state g = Manager.countdown \/ Manager.state g = Manager.playing ->
   0 <= Manager.currentStep g <= Manager.difficulty g /\
   Manager.difficulty g <= 14).

(** The command bytes of the manager. *)
Definition Manager_command (b : Z) : Prop :=
  b = Manager.CMD_GAME_START \/ b = Manager.CMD_GOOD_GUESS \/
  b = Manager.CMD_WRONG_GUESS \/ b = Manager.CMD_GAME_WON.

(** The guesses that finish the game from cursor [cur] on: the [n] symbols
    of [secret] at [cur], [cur + 1], ... *)
Definition winning_guesses (secret : list Z) (cur : Z) (n : nat) : list Z :=
  map (fun i => nth (Z.to_nat i) secret 0) (indices n cur).

(** One payload per guess, as the other manager sketch receives them. *)
Definition ManagerPart000_deliver (guesses : list Z)
  : list ManagerPart000.Event :=
  map (fun b => ManagerPart000.DataRecv [b]) guesses.

(** One payload per guess, each followed by a pass through [loop]. *)
Definition Manager_deliver (now : Z) (buttonState : bool) (rnd : Z -> Z)
  (guesses : list Z) : list Manager.Event :=
  flat_map (fun b => [Manager.DataRecv [b];
                      Manager.Loop now buttonState rnd]) guesses.

(** The states in which the remote shows the outcome of a guess. *)
Definition Remote_displaying (st : Remote.States) : bool :=
  match st with
  | Remote.correct | Remote.wrong | Remote.won => true
  | _ => false
  end.

(** What holds of the remote's globals at any time after power-on. *)
Definition Remote_inv (g : Remote.Globals) : Prop :=
  Remote.locked g = Remote_displaying (Remote.state g) /\
  List.length (Remote.buttonPressed g) = Z.to_nat Remote.buttonsCount /\
  List.length (Remote.lastDebounceTime g) = Z.to_nat Remote.buttonsCount /\
  0 <= Remote.lastSentMessage g <= 3.

(** Events the hardware can produce: the three interrupt routines pass
    the indices 0, 1 and 2, and a payload has at least one byte. *)
Definition Remote_possible (e : Remote.Event) : Prop :=
  match e with
  | Remote.ButtonFall i _ => 0 <= i < Remote.buttonsCount
  | Remote.DataRecv d => d <> []
  | _ => True
  end.

Module FurtherScenario.

(** The manager in idle with a release pending, the press recorded at
    1000. *)
Definition release_pending : Manager.Globals :=
  Manager.mkGlobals Manager.idle 3 false true false false 3000 1000
    (repeat 0 (Z.to_nat Manager.maxSequenceLength)) 0 0 false.

(** The manager right after the first accepted transition. *)
Definition first_transition : Manager.Globals :=
  Manager.set_buttonInter true
    (Manager.set_lastDebounceTime 100 Manager.initial).

(** The remote in playing with its first and third buttons pressed. *)
Definition two_buttons_pressed : Remote.Globals :=
  Remote.mkGlobals 0 Remote.playing false false false false
    [true; false; true] [100; 0; 120] 0 0 0 false.

(** The remote in ready with a start signal latched. *)
Definition start_latched : Remote.Globals :=
  Remote.mkGlobals 0 Remote.ready true false false false
    [false; false; false] [0; 0; 0] 0 0 0 false.

(** The first transmission is accepted, the others are refused. *)
Definition first_only (i : Z) : bool := i =? 0.

End FurtherScenario.

(** * Proofs *)

Arguments bind {G A B} m k g /.
Arguments ret {G A} a g /.
Arguments get {G A} field g /.
Arguments modify {G} f g /.
Arguments emit {G} e g /.
Arguments trap {G A} f g /.
Arguments random : simpl never.
Arguments wrap8 : simpl never.
Arguments wrap32 : simpl never.
Arguments Manager.generateSequence : simpl never.
Arguments ManagerPart000.generateSequence : simpl never.

(** ** Arrays *)

Lemma update_length {A} (a : list A) n v :
  List.length (update a n v) = List.length a.
Proof.
  revert n; induction a as [|h t IH]; intros [|n]; simpl; auto.
Qed.

Lemma update_nth_same {A} (a : list A) n v d :
  (n < List.length a)%nat -> nth n (update a n v) d = v.
Proof.
  revert n; induction a as [|h t IH]; intros [|n] Hn; simpl in *;
    try lia; auto.
  apply IH; lia.
Qed.

Lemma update_nth_other {A} (a : list A) n m v d :
  n <> m -> nth m (update a n v) d = nth m a d.
Proof.
  revert n m; induction a as [|h t IH]; intros [|n] [|m] Hnm; simpl;
    auto; try congruence.
Qed.

Lemma in_bounds_spec {A} (a : list A) i :
  in_bounds a i = true <-> 0 <= i < Z.of_nat (List.length a).
Proof.
  unfold in_bounds. rewrite andb_true_iff, Z.leb_le, Z.ltb_lt. tauto.
Qed.

Lemma in_bounds_false {A} (a : list A) i :
  in_bounds a i = false <-> ~ (0 <= i < Z.of_nat (List.length a)).
Proof.
  rewrite <- in_bounds_spec. destruct (in_bounds a i); split; intros;
    congruence.
Qed.

Lemma random_1_4_symbol raw : symbol (random 1 4 raw).
Proof.
  unfold symbol, random. simpl.
  pose proof (Z.mod_pos_bound raw 3 ltac:(lia)). lia.
Qed.

(** ** The writes of [generateSequence] *)

Lemma filled_length rnd trips : forall i a,
  List.length (filled rnd trips i a) = List.length a.
Proof.
  induction trips as [|n IH]; intros; simpl; auto.
  rewrite IH. apply update_length.
Qed.

Lemma filled_nth rnd trips : forall i a j,
  0 <= i -> 0 <= j -> i + Z.of_nat trips <= Z.of_nat (List.length a) ->
  nth (Z.to_nat j) (filled rnd trips i a) 0 =
    if (i <=? j) && (j <? i + Z.of_nat trips) then random 1 4 (rnd j)
    else nth (Z.to_nat j) a 0.
Proof.
  induction trips as [|n IH]; intros i a j Hi Hj Hfit.
  - simpl. destruct (Z.leb_spec i j), (Z.ltb_spec j (i + 0)); simpl;
      auto; lia.
  - cbn [filled]. rewrite IH by (rewrite ?update_length; lia).
    destruct (Z.leb_spec (i + 1) j), (Z.ltb_spec j (i + 1 + Z.of_nat n)),
      (Z.leb_spec i j), (Z.ltb_spec j (i + Z.of_nat (S n)));
      simpl; try lia; try reflexivity;
      try (rewrite update_nth_other by lia; reflexivity);
      replace j with i by lia; rewrite update_nth_same by lia; reflexivity.
Qed.

Section ManagerFill.
Import Manager.
Variable rnd : Z -> Z.


Lemma set_sequence_same g : set_sequence (sequence g) g = g.
Proof. destruct g; reflexivity. Qed.

(** As long as the rounds stay inside the array, the loop returns. *)
Lemma fill_in_bounds trips : forall i g,
  0 <= i -> i + Z.of_nat trips <= Z.of_nat (List.length (sequence g)) ->
  for_loop trips i (Manager_fill_round rnd) g =
    Ok (tt, set_sequence (filled rnd trips i (sequence g)) g, []).
Proof.
  induction trips as [|n IH]; intros i g Hi Hfit.
  - simpl. now rewrite set_sequence_same.
  - cbn [for_loop filled]. unfold bind at 1.
    unfold Manager_fill_round at 1, write_sequence, store.
    replace (in_bounds (sequence g) i) with true
      by (symmetry; apply in_bounds_spec; lia).
    rewrite IH by (cbn; rewrite ?update_length; lia).
    reflexivity.
Qed.

(** A round that reaches the end of the array stops the loop there. *)
Lemma fill_overflow trips : forall i g,
  0 <= i <= Z.of_nat (List.length (sequence g)) ->
  Z.of_nat (List.length (sequence g)) < i + Z.of_nat trips ->
  for_loop trips i (Manager_fill_round rnd) g =
    Fail (OutOfBounds (Z.of_nat (List.length (sequence g)))).
Proof.
  induction trips as [|n IH]; intros i g Hi Hover.
  - simpl in Hover. lia.
  - cbn [for_loop]. unfold bind at 1.
    unfold Manager_fill_round at 1, write_sequence, store.
    destruct (in_bounds (sequence g) i) eqn:Hb.
    + apply in_bounds_spec in Hb.
      rewrite IH; cbn; rewrite ?update_length; auto; lia.
    + apply in_bounds_false in Hb.
      replace i with (Z.of_nat (List.length (sequence g))) by lia.
      reflexivity.
Qed.

Lemma generateSequence_in_bounds g :
  0 <= difficulty g ->
  difficulty g + 1 <= Z.of_nat (List.length (sequence g)) ->
  generateSequence rnd g =
    Ok (tt,
        set_currentStep 0
          (set_sequence
             (filled rnd (Z.to_nat (difficulty g + 1)) 0 (sequence g)) g),
        [Serial_print "Generating random sequence"]).
Proof.
  intros Hd Hfit. unfold generateSequence. cbn.
  change (fun i => write_sequence i (random 1 4 (rnd i)))
    with (Manager_fill_round rnd).
  rewrite fill_in_bounds by lia. reflexivity.
Qed.

Lemma generateSequence_overflow g :
  0 <= difficulty g ->
  Z.of_nat (List.length (sequence g)) < difficulty g + 1 ->
  generateSequence rnd g =
    Fail (OutOfBounds (Z.of_nat (List.length (sequence g)))).
Proof.
  intros Hd Hover. unfold generateSequence. cbn.
  change (fun i => write_sequence i (random 1 4 (rnd i)))
    with (Manager_fill_round rnd).
  rewrite fill_overflow by lia. reflexivity.
Qed.

End ManagerFill.

(** Below the top difficulty the manager's generator does what is asked of
    it: [difficulty + 1] symbols, all in {1, 2, 3}, cursor at 0, the other
    globals untouched. *)
Lemma Manager_generateSequence_below_top rnd g :
  List.length (Manager.sequence g) = Z.to_nat Manager.maxSequenceLength ->
  0 <= Manager.difficulty g <= 14 ->
  exists g',
    Manager.generateSequence rnd g =
      Ok (tt, g', [Serial_print "Generating random sequence"]) /\
    Manager.currentStep g' = 0 /\
    Manager.difficulty g' = Manager.difficulty g /\
    Manager.state g' = Manager.state g /\
    List.length (Manager.sequence g') = 15%nat /\
    forall j, 0 <= j <= Manager.difficulty g ->
      nth (Z.to_nat j) (Manager.sequence g') 0 = random 1 4 (rnd j) /\
      symbol (nth (Z.to_nat j) (Manager.sequence g') 0).
Proof.
  intros Hlen Hd. eexists. split.
  - apply generateSequence_in_bounds; [lia|]. rewrite Hlen. cbn. lia.
  - cbn. repeat split; auto.
    + rewrite filled_length. rewrite Hlen. reflexivity.
    + rewrite filled_nth by (rewrite ?Hlen; cbn; lia).
      destruct (Z.leb_spec 0 j),
        (Z.ltb_spec j (0 + Z.of_nat (Z.to_nat (Manager.difficulty g + 1))));
        simpl; auto; lia.
    + rewrite filled_nth by (rewrite ?Hlen; cbn; lia).
      destruct (Z.leb_spec 0 j),
        (Z.ltb_spec j (0 + Z.of_nat (Z.to_nat (Manager.difficulty g + 1))));
        simpl; try lia. apply random_1_4_symbol.
Qed.

(** ** C1, C2: the sequence array at the top difficulty *)

(** C1 (defect in the code).  The spec asks that for every difficulty in
    [0,15] no access to the 15-cell [sequence] array leaves it.  At
    difficulty 15 the code breaks it: fifteen short presses after power-on
    bring the difficulty to 15, the long press that follows runs
    [generateSequence], and its sixteenth write uses index 15, one past the
    last cell. *)
Theorem C1_top_difficulty_writes_past_the_array :
  forall rnd,
    option_map
      (fun g => (Manager.state g, Manager.difficulty g,
                 List.length (Manager.sequence g)))
      (globals_of
         (Manager.run (ManagerScenario.reach_top_difficulty rnd)
            Manager.initial)) = Some (Manager.idle, 15, 15%nat) /\
    Manager.run (ManagerScenario.start_at_top_difficulty rnd)
      Manager.initial = Fail (OutOfBounds 15).
Proof.
  intro rnd. split; vm_compute; reflexivity.
Qed.

(** C2 (defect in the code).  The spec asks for [difficulty + 1] symbols
    for every difficulty in [0,15].  With the array at its declared size of
    15 cells, [generateSequence] at difficulty 15 does not produce sixteen
    symbols: its last write falls outside the array.  The other manager
    sketch shares the loop and the array size, and fails in the same way
    when a game is started after fifteen short presses. *)
Theorem C2_generateSequence_overflows_at_difficulty_15 :
  forall rnd g,
    List.length (Manager.sequence g) = Z.to_nat Manager.maxSequenceLength ->
    Manager.difficulty g = 15 ->
    Manager.generateSequence rnd g = Fail (OutOfBounds 15) /\
    ManagerPart000.run (ManagerPart000Scenario.start_at_top_difficulty rnd)
      ManagerPart000.initial = Fail (OutOfBounds 15).
Proof.
  intros rnd g Hlen Hd. split.
  - rewrite generateSequence_overflow; rewrite ?Hlen, ?Hd; cbn;
      try reflexivity; lia.
  - vm_compute. reflexivity.
Qed.

Lemma C2_generateSequence_overflows_at_difficulty_15_witness :
  (List.length (Manager.sequence ManagerScenario.top_difficulty) =
     Z.to_nat Manager.maxSequenceLength /\
   Manager.difficulty ManagerScenario.top_difficulty = 15) /\
  (Manager.generateSequence (fun i => i) ManagerScenario.top_difficulty =
     Fail (OutOfBounds 15) /\
   ManagerPart000.run
     (ManagerPart000Scenario.start_at_top_difficulty (fun i => i))
     ManagerPart000.initial = Fail (OutOfBounds 15)).
Proof.
  split.
  - split; reflexivity.
  - apply (C2_generateSequence_overflows_at_difficulty_15
             (fun i => i) ManagerScenario.top_difficulty); reflexivity.
Defined.

(** ** C3: the verdict on a guess *)

Lemma wrap8_small z : 0 <= z < 256 -> wrap8 z = z.
Proof. intros. unfold wrap8. now apply Z.mod_small. Qed.

(** C3.  While the manager is playing a live sequence, a guess that differs
    from [sequence[currentStep]] sends WRONG_GUESS, puts the cursor back to 0
    and leaves the state at playing; a guess that matches with
    [currentStep + 1] below the sequence length [difficulty + 1] sends
    GOOD_GUESS, advances the cursor and leaves the state at playing; a guess
    that matches with [currentStep + 1] equal to the length sends GAME_WON
    and moves to game_over.  This holds for [treatGuess] of the manager and
    for the receive handler of the other manager sketch, which verifies the
    received byte on the spot. *)
Theorem C3_guess_verdicts :
  forall (g : Manager.Globals) (h : ManagerPart000.Globals) (b : Z),
    Manager_live g ->
    ManagerPart000_live h ->
    let sym := nth (Z.to_nat (Manager.currentStep g)) (Manager.sequence g) 0 in
    let sym' :=
      nth (Z.to_nat (ManagerPart000.currentStep h))
        (ManagerPart000.sequence h) 0 in
    ((Manager.guess g <> sym ->
      Manager_outcome (Manager.treatGuess g) =
        Some (Manager.playing, 0, [Manager.CMD_WRONG_GUESS])) /\
     (Manager.guess g = sym ->
      Manager.currentStep g + 1 < Manager.difficulty g + 1 ->
      Manager_outcome (Manager.treatGuess g) =
        Some (Manager.playing, Manager.currentStep g + 1,
              [Manager.CMD_GOOD_GUESS])) /\
     (Manager.guess g = sym ->
      Manager.currentStep g + 1 = Manager.difficulty g + 1 ->
      Manager_outcome (Manager.treatGuess g) =
        Some (Manager.game_over, Manager.currentStep g + 1,
              [Manager.CMD_GAME_WON]))) /\
    ((b <> sym' ->
      ManagerPart000_outcome (ManagerPart000.onDataRecv [b] h) =
        Some (ManagerPart000.playing, 0, [ManagerPart000.CMD_WRONG_GUESS])) /\
     (b = sym' ->
      ManagerPart000.currentStep h + 1 < ManagerPart000.difficulty h + 1 ->
      ManagerPart000_outcome (ManagerPart000.onDataRecv [b] h) =
        Some (ManagerPart000.playing, ManagerPart000.currentStep h + 1,
              [ManagerPart000.CMD_GOOD_GUESS])) /\
     (b = sym' ->
      ManagerPart000.currentStep h + 1 = ManagerPart000.difficulty h + 1 ->
      ManagerPart000_outcome (ManagerPart000.onDataRecv [b] h) =
        Some (ManagerPart000.game_over, ManagerPart000.currentStep h + 1,
              [ManagerPart000.CMD_GAME_WON]))).
Proof.
  intros g h b (Hst & Hlen & Hfit & Hcur) (Hst' & Hlen' & Hfit' & Hcur')
    sym sym'.
  unfold Manager.maxSequenceLength in *.
  unfold ManagerPart000.maxSequenceLength in *.
  assert (Hb : in_bounds (Manager.sequence g) (Manager.currentStep g) = true)
    by (apply in_bounds_spec; rewrite Hlen; lia).
  assert (Hb' : in_bounds (ManagerPart000.sequence h)
                  (ManagerPart000.currentStep h) = true)
    by (apply in_bounds_spec; rewrite Hlen'; lia).
  split.
  - unfold Manager.treatGuess, Manager.read_sequence, load. cbn.
    rewrite Hb. cbn. fold sym.
    rewrite wrap8_small by lia.
    repeat split; intros.
    + apply Z.eqb_neq in H. rewrite H. cbn. now rewrite Hst.
    + apply Z.eqb_eq in H. rewrite H. cbn.
      replace (Manager.difficulty g <? Manager.currentStep g + 1)
        with false by (symmetry; apply Z.ltb_ge; lia).
      cbn. now rewrite Hst.
    + apply Z.eqb_eq in H. rewrite H. cbn.
      replace (Manager.difficulty g <? Manager.currentStep g + 1)
        with true by (symmetry; apply Z.ltb_lt; lia).
      reflexivity.
  - unfold ManagerPart000.onDataRecv, ManagerPart000.read_sequence, load.
    cbn. rewrite Hst'. cbn. rewrite Hb'. cbn. fold sym'.
    rewrite wrap8_small by lia.
    repeat split; intros.
    + apply Z.eqb_neq in H. rewrite H. cbn. now rewrite Hst'.
    + apply Z.eqb_eq in H. rewrite H. cbn.
      replace (ManagerPart000.difficulty h <?
                 ManagerPart000.currentStep h + 1)
        with false by (symmetry; apply Z.ltb_ge; lia).
      cbn. now rewrite Hst'.
    + apply Z.eqb_eq in H. rewrite H. cbn.
      replace (ManagerPart000.difficulty h <?
                 ManagerPart000.currentStep h + 1)
        with true by (symmetry; apply Z.ltb_lt; lia).
      reflexivity.
Qed.

Lemma C3_guess_verdicts_witness :
  Manager_live ManagerScenario.playing_111 /\
  ManagerPart000_live ManagerPart000Scenario.playing_111 /\
  Manager_outcome (Manager.treatGuess ManagerScenario.playing_111) =
    Some (Manager.playing, 0, [Manager.CMD_WRONG_GUESS]) /\
  ManagerPart000_outcome
    (ManagerPart000.onDataRecv [1] ManagerPart000Scenario.playing_111) =
    Some (ManagerPart000.playing, 1, [ManagerPart000.CMD_GOOD_GUESS]).
Proof.
  assert (L : Manager_live ManagerScenario.playing_111)
    by (repeat split; try reflexivity; vm_compute; congruence).
  assert (L' : ManagerPart000_live ManagerPart000Scenario.playing_111)
    by (repeat split; try reflexivity; vm_compute; congruence).
  destruct (C3_guess_verdicts ManagerScenario.playing_111
              ManagerPart000Scenario.playing_111 1 L L')
    as [[Wrong _] [_ [Good _]]].
  split; [exact L|]. split; [exact L'|]. split.
  - apply Wrong. vm_compute. congruence.
  - apply Good; vm_compute; congruence.
Defined.

(** ** C4: what the remote does when a transmission fails *)

(** C4 (defect in the code).  On a failure status [onDataSent] resends
    [lastSentMessage] five times, pausing 100 ms after each, and touches no
    global: that much of the spec holds.  But the counter leaves the loop at
    6, not 5 (the test [retries++ < 5] increments once more when it fails),
    so the line "Failed to send after 5 attempts" that the code means to
    write after giving up is never written.  Both remote sketches carry the
    same function. *)
Theorem C4_giving_up_is_not_logged :
  forall (g : Remote.Globals) (h : RemotePart001.Globals),
    (Remote.onDataSent_while 256 false 0 g =
       Ok (6, g,
           [esp_now_send (Remote.lastSentMessage g); delay 100;
            esp_now_send (Remote.lastSentMessage g); delay 100;
            esp_now_send (Remote.lastSentMessage g); delay 100;
            esp_now_send (Remote.lastSentMessage g); delay 100;
            esp_now_send (Remote.lastSentMessage g); delay 100]) /\
     Remote.onDataSent false g =
       Ok (tt, g,
           [Serial_print "Last Packet Send Status: "; Serial_print "Fail";
            esp_now_send (Remote.lastSentMessage g); delay 100;
            esp_now_send (Remote.lastSentMessage g); delay 100;
            esp_now_send (Remote.lastSentMessage g); delay 100;
            esp_now_send (Remote.lastSentMessage g); delay 100;
            esp_now_send (Remote.lastSentMessage g); delay 100]) /\
     sent (output_of (Remote.onDataSent false g)) =
       repeat (Remote.lastSentMessage g) 5 /\
     delays (output_of (Remote.onDataSent false g)) = repeat 100 5 /\
     logged (output_of (Remote.onDataSent false g)) =
       ["Last Packet Send Status: "; "Fail"]%string) /\
    (RemotePart001.onDataSent false h =
       Ok (tt, h,
           [Serial_print "Last Packet Send Status: "; Serial_print "Fail";
            esp_now_send (RemotePart001.lastSentMessage h); delay 100;
            esp_now_send (RemotePart001.lastSentMessage h); delay 100;
            esp_now_send (RemotePart001.lastSentMessage h); delay 100;
            esp_now_send (RemotePart001.lastSentMessage h); delay 100;
            esp_now_send (RemotePart001.lastSentMessage h); delay 100]) /\
     logged (output_of (RemotePart001.onDataSent false h)) =
       ["Last Packet Send Status: "; "Fail"]%string).
Proof.
  intros g h. repeat split; reflexivity.
Qed.

(** The retry loop ends by itself: any fuel from 6 on gives the same
    result, and a successful status ends it at once. *)
Lemma Remote_onDataSent_while_ends n g :
  Remote.onDataSent_while (6 + n) false 0 g =
    Ok (6, g,
        [esp_now_send (Remote.lastSentMessage g); delay 100;
         esp_now_send (Remote.lastSentMessage g); delay 100;
         esp_now_send (Remote.lastSentMessage g); delay 100;
         esp_now_send (Remote.lastSentMessage g); delay 100;
         esp_now_send (Remote.lastSentMessage g); delay 100]) /\
  forall retries,
    Remote.onDataSent_while (1 + n) true retries g = Ok (retries, g, []).
Proof. split; reflexivity. Qed.

(** A transmission that succeeded is logged and nothing else happens. *)
Lemma Remote_onDataSent_success g :
  Remote.onDataSent true g =
    Ok (tt, g,
        [Serial_print "Last Packet Send Status: "; Serial_print "Success"]).
Proof. reflexivity. Qed.

(** The send callback of the manager only writes to the log. *)
Lemma Manager_onDataSent_keeps_globals ok g :
  globals_of (Manager.onDataSent ok g) = Some g.
Proof. reflexivity. Qed.

(** ** C5: payloads that are not one byte long *)

(** The remote drops them... *)
Lemma Remote_onDataRecv_drops_other_lengths data g :
  List.length data <> 1%nat ->
  Remote.onDataRecv data g = Ok (tt, g, []).
Proof.
  intro Hlen. unfold Remote.onDataRecv. cbn.
  destruct (Remote.locked g); cbn; auto.
  replace (Z.of_nat (List.length data) =? 1) with false
    by (symmetry; apply Z.eqb_neq; lia).
  reflexivity.
Qed.

Lemma RemotePart001_onDataRecv_drops_other_lengths now data g :
  List.length data <> 1%nat ->
  RemotePart001.onDataRecv now data g = Ok (tt, g, []).
Proof.
  intro Hlen. unfold RemotePart001.onDataRecv. cbn.
  destruct (RemotePart001.locked g); cbn; auto.
  replace (Z.of_nat (List.length data) =? 1) with false
    by (symmetry; apply Z.eqb_neq; lia).
  reflexivity.
Qed.

(** ... and so does the other manager sketch... *)
Lemma ManagerPart000_onDataRecv_drops_other_lengths data g :
  List.length data <> 1%nat ->
  ManagerPart000.onDataRecv data g = Ok (tt, g, []).
Proof.
  intro Hlen. unfold ManagerPart000.onDataRecv. cbn.
  destruct (ManagerPart000.state g); cbn; auto.
  replace (Z.of_nat (List.length data) =? 1) with false
    by (symmetry; apply Z.eqb_neq; lia).
  reflexivity.
Qed.

(** C5 (defect in the code).  The spec asks both nodes to drop a payload
    whose length is not 1.  The receive handler of the manager never looks
    at [len]: while playing, a payload of two bytes sets [guessed] and stores
    its first byte as the guess, and the next pass through [loop] verifies
    it -- here it wins the one-symbol game. *)
Theorem C5_manager_takes_a_two_byte_payload :
  forall rnd g b1 b2,
    Manager.state g = Manager.playing ->
    Manager.onDataRecv [b1; b2] g =
      Ok (tt, Manager.set_guess b1 (Manager.set_guessed true g), []) /\
    Manager_outcome
      (Manager.run (ManagerScenario.two_byte_payload rnd)
         ManagerScenario.playing_1) =
      Some (Manager.game_over, 1, [Manager.CMD_GAME_WON]).
Proof.
  intros rnd g b1 b2 Hst. split.
  - unfold Manager.onDataRecv. cbn. rewrite Hst. reflexivity.
  - reflexivity.
Qed.

Lemma C5_manager_takes_a_two_byte_payload_witness :
  Manager.state ManagerScenario.playing_1 = Manager.playing /\
  Manager.onDataRecv [1; 99] ManagerScenario.playing_1 =
    Ok (tt,
        Manager.set_guess 1
          (Manager.set_guessed true ManagerScenario.playing_1), []).
Proof.
  split.
  - reflexivity.
  - apply (C5_manager_takes_a_two_byte_payload
             (fun i => i) ManagerScenario.playing_1 1 99). reflexivity.
Defined.

(** ** C6: when the difficulty moves *)

(** Takes apart an equation [action g = Ok (...)] along the tests the
    action makes. *)
Ltac split_run :=
  repeat (cbn in *;
    match goal with
    | H : Ok _ = Ok _ |- _ => inversion H; subst; clear H
    | H : Fail _ = Ok _ |- _ => discriminate H
    | H : context [match ?x with _ => _ end] |- _ => destruct x eqn:?
    | H : context [if ?c then _ else _] |- _ => destruct c eqn:?
    end).

(** The filling loop writes to [sequence] and to nothing else. *)
Lemma fill_frame rnd trips : forall i g u g' o,
  for_loop trips i (Manager_fill_round rnd) g = Ok (u, g', o) ->
  g' = Manager.set_sequence (Manager.sequence g') g /\ o = [].
Proof.
  induction trips as [|n IH]; intros i g u g' o H.
  - cbn in H. inversion H; subst. now rewrite set_sequence_same.
  - cbn [for_loop] in H. unfold bind in H.
    unfold Manager_fill_round at 1, Manager.write_sequence in H.
    destruct (store (Manager.sequence g) i (random 1 4 (rnd i)))
      as [a|f]; [|discriminate].
    destruct (for_loop n (i + 1) (Manager_fill_round rnd)
                (Manager.set_sequence a g)) as [[[u1 g1] o1]|f] eqn:E;
      [|discriminate].
    apply IH in E. destruct E as [Eg ->].
    inversion H; subst. split; auto.
Qed.

Lemma generateSequence_frame rnd g u g' o :
  Manager.generateSequence rnd g = Ok (u, g', o) ->
  g' = Manager.set_currentStep 0 (Manager.set_sequence (Manager.sequence g') g).
Proof.
  unfold Manager.generateSequence. cbn.
  change (fun i => Manager.write_sequence i (random 1 4 (rnd i)))
    with (Manager_fill_round rnd).
  intro H.
  destruct (for_loop (Z.to_nat (Manager.difficulty g + 1)) 0
              (Manager_fill_round rnd) g)
    as [[[u1 g1] o1]|f] eqn:E; cbn in H; [|discriminate].
  apply fill_frame in E. destruct E as [Eg ->].
  inversion H; subst. cbn. rewrite Eg at 1. reflexivity.
Qed.

(** In the manager every handler either leaves the difficulty alone or, in
    idle, replaces it by its successor modulo 16; it never sets the lock. *)
Lemma Manager_handle_difficulty e g g' o :
  Manager.handle e g = Ok (tt, g', o) ->
  (Manager.difficultyLocked g = false ->
   Manager.difficultyLocked g' = false) /\
  (Manager.difficulty g' <> Manager.difficulty g ->
   Manager.state g = Manager.idle /\
   Manager.difficulty g' = (Manager.difficulty g + 1) mod 16).
Proof.
  destruct e as [now buttonState rnd|t|data|ok]; cbn [Manager.handle];
    intro H.
  - unfold Manager.loop, Manager.updateButtonState,
      Manager.increaseDifficulty, Manager.displayDifficulty,
      Manager.treatGuess, Manager.read_sequence, Manager.alertBlink,
      Manager.sendGameStart, load in H.
    split_run;
      repeat match goal with
        | E : Manager.generateSequence _ _ = Ok _ |- _ =>
            apply generateSequence_frame in E; rewrite E; clear E
        end; cbn; try tauto; try (split; intros; try congruence; tauto).
  - unfold Manager.onButtonPress in H. split_run; tauto.
  - unfold Manager.onDataRecv, load in H. split_run; tauto.
  - cbn in H. inversion H; subst. tauto.
Qed.

Lemma Manager_run_never_locks es : forall g g' o,
  Manager.difficultyLocked g = false ->
  Manager.run es g = Ok (tt, g', o) ->
  Manager.difficultyLocked g' = false.
Proof.
  induction es as [|e rest IH]; intros g g' o Hg H.
  - cbn in H. inversion H; subst. exact Hg.
  - cbn [Manager.run] in H. unfold bind in H.
    destruct (Manager.handle e g) as [[[[] g1] o1]|f] eqn:E; [|discriminate].
    destruct (Manager.run rest g1) as [[[[] g2] o2]|f] eqn:E2;
      [|discriminate].
    inversion H; subst.
    apply (IH g1 g' o2); auto.
    apply (Manager_handle_difficulty e g g1 o1 E). exact Hg.
Qed.

(** The manager meets the spec on the difficulty: whatever happened
    since power-on, an event changes the difficulty only when the node is in
    idle with the lock open, and then to the successor modulo 16. *)
Theorem Manager_difficulty_moves_only_in_idle :
  forall es e g g' o o',
    Manager.run es Manager.initial = Ok (tt, g, o) ->
    Manager.handle e g = Ok (tt, g', o') ->
    Manager.difficulty g' <> Manager.difficulty g ->
    Manager.state g = Manager.idle /\
    Manager.difficultyLocked g = false /\
    Manager.difficulty g' = (Manager.difficulty g + 1) mod 16.
Proof.
  intros es e g g' o o' Hrun Hstep Hmoved.
  destruct (Manager_handle_difficulty e g g' o' Hstep) as [_ Hd].
  destruct (Hd Hmoved) as [Hidle Hnext].
  repeat split; auto.
  apply (Manager_run_never_locks es Manager.initial g o); auto.
Qed.

(** C6 (defect in the code).  The spec asks that the difficulty moves only
    in idle with the lock open and never during a game.  The manager meets
    it ([Manager_difficulty_moves_only_in_idle]).  The other manager sketch
    tests only the lock, in every state, and the lock can be open during a
    game: a long press made while a game is played stays pending, starts the
    next game right after game_over has opened the lock, and a short press
    during that game raises the difficulty from 0 to 1 while the state is
    playing. *)
Theorem C6_part000_difficulty_moves_while_playing :
  globals_of
    (ManagerPart000.run
       (ManagerPart000Scenario.second_game ManagerPart000Scenario.draws)
       ManagerPart000.initial) =
    Some ManagerPart000Scenario.second_game_playing /\
  ManagerPart000.state ManagerPart000Scenario.second_game_playing =
    ManagerPart000.playing /\
  ManagerPart000.difficultyLocked ManagerPart000Scenario.second_game_playing =
    false /\
  ManagerPart000.difficulty ManagerPart000Scenario.second_game_playing = 0 /\
  globals_of
    (ManagerPart000.run
       (ManagerPart000Scenario.press ManagerPart000Scenario.draws 100 20000)
       ManagerPart000Scenario.second_game_playing) =
    Some ManagerPart000Scenario.after_short_press /\
  ManagerPart000.state ManagerPart000Scenario.after_short_press =
    ManagerPart000.playing /\
  ManagerPart000.difficulty ManagerPart000Scenario.after_short_press = 1.
Proof.
  repeat split; vm_compute; reflexivity.
Qed.

(** ** C7: commands that reach a locked remote *)

(** C7.  While [locked] is set the receive handler of the remote changes no
    global and produces no output, whatever the payload; this holds in both
    remote sketches. *)
Theorem C7_locked_remote_ignores_commands :
  forall (g : Remote.Globals) (h : RemotePart001.Globals) now data,
    Remote.locked g = true ->
    RemotePart001.locked h = true ->
    Remote.onDataRecv data g = Ok (tt, g, []) /\
    RemotePart001.onDataRecv now data h = Ok (tt, h, []).
Proof.
  intros g h now data Hg Hh. split.
  - unfold Remote.onDataRecv. cbn. rewrite Hg. reflexivity.
  - unfold RemotePart001.onDataRecv. cbn. rewrite Hh. reflexivity.
Qed.

Lemma C7_locked_remote_ignores_commands_witness :
  (Remote.locked (RemoteScenario.showing Remote.correct) = true /\
   RemotePart001.locked RemotePart001Scenario.showing_correct = true) /\
  Remote.onDataRecv [Remote.CMD_GAME_WON]
    (RemoteScenario.showing Remote.correct) =
    Ok (tt, RemoteScenario.showing Remote.correct, []) /\
  RemotePart001.onDataRecv 500 [RemotePart001.CMD_GAME_WON]
    RemotePart001Scenario.showing_correct =
    Ok (tt, RemotePart001Scenario.showing_correct, []).
Proof.
  split.
  - split; reflexivity.
  - apply (C7_locked_remote_ignores_commands
             (RemoteScenario.showing Remote.correct)
             RemotePart001Scenario.showing_correct 500); reflexivity.
Defined.

(** ** C8: the timed displays of the remote *)

(** The remote meets the spec: the indicator of correct and wrong stays on
    while at most 2000 ms have passed since the state was entered, and the
    first pass through [loop] after that returns to playing with the lock
    open; won does the same after 10000 ms and returns to ready. *)
Theorem Remote_timed_displays :
  forall g now queued,
    let elapsed := wrap32 (now - Remote.lastStateUpdate g) in
    let blink := if now mod 2000 <? 1000 then HIGH else LOW in
    (Remote.state g = Remote.correct ->
     (elapsed <= 2000 ->
      Remote.loop now queued g =
        Ok (tt, g, [digitalWrite Remote.greenLed HIGH])) /\
     (2000 < elapsed ->
      exists g',
        Remote.loop now queued g =
          Ok (tt, g', [digitalWrite Remote.greenLed HIGH;
                       digitalWrite Remote.greenLed LOW]) /\
        Remote.state g' = Remote.playing /\ Remote.locked g' = false)) /\
    (Remote.state g = Remote.wrong ->
     (elapsed <= 2000 ->
      Remote.loop now queued g =
        Ok (tt, g, [digitalWrite Remote.redLed HIGH])) /\
     (2000 < elapsed ->
      exists g',
        Remote.loop now queued g =
          Ok (tt, g', [digitalWrite Remote.redLed HIGH;
                       digitalWrite Remote.redLed LOW]) /\
        Remote.state g' = Remote.playing /\ Remote.locked g' = false)) /\
    (Remote.state g = Remote.won ->
     (elapsed <= 10000 ->
      Remote.loop now queued g =
        Ok (tt, g, [digitalWrite Remote.redLed blink;
                    digitalWrite Remote.greenLed blink])) /\
     (10000 < elapsed ->
      exists g',
        Remote.loop now queued g =
          Ok (tt, g',
              [digitalWrite Remote.redLed blink;
               digitalWrite Remote.greenLed blink;
               Serial_print "Waiting for a new game start signal.";
               digitalWrite Remote.greenLed LOW;
               digitalWrite Remote.redLed LOW]) /\
        Remote.state g' = Remote.ready /\ Remote.locked g' = false)).
Proof.
  intros g now queued elapsed blink.
  repeat split; intros; unfold Remote.loop; cbn;
    match goal with Hs : Remote.state g = _ |- _ => rewrite Hs end; cbn;
    fold elapsed; fold blink.
  all: try (replace (2000 <? elapsed) with false
              by (symmetry; apply Z.ltb_ge; lia); reflexivity).
  all: try (replace (10000 <? elapsed) with false
              by (symmetry; apply Z.ltb_ge; lia); reflexivity).
  all: try (replace (2000 <? elapsed) with true
              by (symmetry; apply Z.ltb_lt; lia);
            eexists; repeat split).
  all: replace (10000 <? elapsed) with true
         by (symmetry; apply Z.ltb_lt; lia);
       eexists; repeat split.
Qed.

(** C8 (defect in the code).  The spec asks correct, wrong and won to open
    the lock when their display time is over.  The remote does
    ([Remote_timed_displays]).  In the other remote sketch the correct state
    returns to playing after 2000 ms without touching [locked], although its
    wrong and won states open it: the lock set when GOOD_GUESS arrived stays
    set, and from then on every command is ignored. *)
Theorem C8_part001_correct_leaves_the_lock_set :
  forall h now queued,
    RemotePart001.state h = RemotePart001.correct ->
    RemotePart001.locked h = true ->
    2000 < wrap32 (now - RemotePart001.lastStateUpdate h) ->
    let h' := RemotePart001.set_state RemotePart001.playing h in
    RemotePart001.loop now queued h =
      Ok (tt, h', [digitalWrite RemotePart001.greenLed HIGH;
                   digitalWrite RemotePart001.greenLed LOW]) /\
    RemotePart001.locked h' = true /\
    forall later data,
      RemotePart001.onDataRecv later data h' = Ok (tt, h', []).
Proof.
  intros h now queued Hst Hlk Hlate h'. repeat split.
  - unfold RemotePart001.loop. cbn. rewrite Hst. cbn.
    replace (2000 <? wrap32 (now - RemotePart001.lastStateUpdate h))
      with true by (symmetry; apply Z.ltb_lt; lia).
    reflexivity.
  - exact Hlk.
  - intros later data. unfold RemotePart001.onDataRecv. cbn.
    rewrite Hlk. reflexivity.
Qed.

Lemma C8_part001_correct_leaves_the_lock_set_witness :
  (RemotePart001.state RemotePart001Scenario.showing_correct =
     RemotePart001.correct /\
   RemotePart001.locked RemotePart001Scenario.showing_correct = true /\
   2000 < wrap32 (2001 - RemotePart001.lastStateUpdate
                           RemotePart001Scenario.showing_correct)) /\
  RemotePart001.loop 2001 (fun _ => true)
    RemotePart001Scenario.showing_correct =
    Ok (tt,
        RemotePart001.set_state RemotePart001.playing
          RemotePart001Scenario.showing_correct,
        [digitalWrite RemotePart001.greenLed HIGH;
         digitalWrite RemotePart001.greenLed LOW]).
Proof.
  split.
  - repeat split; vm_compute; reflexivity.
  - apply (C8_part001_correct_leaves_the_lock_set
             RemotePart001Scenario.showing_correct 2001 (fun _ => true));
      vm_compute; reflexivity.
Defined.

(** ** C9: classifying a press of the manager's button *)



(** A press recorded at 1000 and released at 3000 is long, released at
    2999 it is short. *)
Example updateButtonState_two_seconds :
  option_map (fun g => (Manager.longPressed g, Manager.shortPressed g))
    (globals_of
       (Manager.updateButtonState 3000 HIGH ManagerScenario.button_down)) =
    Some (true, false) /\
  option_map (fun g => (Manager.longPressed g, Manager.shortPressed g))
    (globals_of
       (Manager.updateButtonState 2999 HIGH ManagerScenario.button_down)) =
    Some (false, true).
Proof. split; reflexivity. Qed.









(** The game of the scenario below is reached from power-on. *)
Lemma Manager_one_game_ends_in_game_over :
  globals_of (Manager.run ManagerCycleScenario.one_game Manager.initial) =
    Some ManagerCycleScenario.in_game_over.
Proof. vm_compute. reflexivity. Qed.


(** Nor is a cycle classified at all when its press edge falls within
    50 ms of the last accepted transition, however long the button is then
    held. *)
Example Manager_press_inside_the_window_is_not_classified :
  Manager_classified
    (output_of
       (Manager.run ManagerCycleScenario.press_inside_the_window
          ManagerCycleScenario.idle_after_release)) = [] /\
  wrap32 (4040 - 1040) = 3000.
Proof. split; vm_compute; reflexivity. Qed.

(** ** C10: a received guess is verified on every pass *)

Lemma Manager_handle_guessed e g g' o :
  Manager.handle e g = Ok (tt, g', o) ->
  Manager.guessed g = true -> Manager.guessed g' = true.
Proof.
  destruct e as [now buttonState rnd|t|data|ok]; cbn [Manager.handle];
    intro H.
  - unfold Manager.loop, Manager.updateButtonState,
      Manager.increaseDifficulty, Manager.displayDifficulty,
      Manager.treatGuess, Manager.read_sequence, Manager.alertBlink,
      Manager.sendGameStart, load in H.
    split_run;
      repeat match goal with
        | E : Manager.generateSequence _ _ = Ok _ |- _ =>
            apply generateSequence_frame in E; rewrite E; clear E
        end; cbn; intros; try congruence; auto.
  - unfold Manager.onButtonPress in H. split_run; auto.
  - unfold Manager.onDataRecv, load in H. split_run; auto.
  - cbn in H. inversion H; subst. auto.
Qed.

Lemma Manager_run_guessed es : forall g g' o,
  Manager.run es g = Ok (tt, g', o) ->
  Manager.guessed g = true -> Manager.guessed g' = true.
Proof.
  induction es as [|e rest IH]; intros g g' o H Hg.
  - cbn in H. inversion H; subst. exact Hg.
  - cbn [Manager.run] in H. unfold bind in H.
    destruct (Manager.handle e g) as [[[[] g1] o1]|f] eqn:E; [|discriminate].
    destruct (Manager.run rest g1) as [[[[] g2] o2]|f] eqn:E2;
      [|discriminate].
    inversion H; subst.
    apply (IH g1 g' o2); auto.
    apply (Manager_handle_guessed e g g1 o1 E Hg).
Qed.

(** C10.  In the manager, once [guessed] is set no callback and no pass
    through [loop] clears it; every pass made in playing therefore runs
    [treatGuess] again, on a [guess] that the pass leaves as it was.  One
    received byte is thus verified over and over: against the secret 1, 1, 1
    a single 1 is answered with GOOD_GUESS, GOOD_GUESS, GAME_WON in three
    passes, the cursor going from 0 to 3, and a single 2 is answered with
    WRONG_GUESS in each of the three passes. *)
Theorem C10_guessed_is_never_cleared :
  forall g,
    Manager.guessed g = true ->
    (forall es g' o,
       Manager.run es g = Ok (tt, g', o) -> Manager.guessed g' = true) /\
    (forall now buttonState rnd,
       Manager.state g = Manager.playing ->
       Manager.loop now buttonState rnd g =
         (Manager.displayDifficulty ;; Manager.treatGuess) g /\
       forall g' o,
         Manager.loop now buttonState rnd g = Ok (tt, g', o) ->
         Manager.guess g' = Manager.guess g) /\
    (forall rnd,
       Manager_outcome
         (Manager.run (ManagerScenario.one_guess_three_passes 1 rnd)
            ManagerScenario.playing_111) =
         Some (Manager.game_over, 3,
               [Manager.CMD_GOOD_GUESS; Manager.CMD_GOOD_GUESS;
                Manager.CMD_GAME_WON]) /\
       Manager_outcome
         (Manager.run (ManagerScenario.one_guess_three_passes 2 rnd)
            ManagerScenario.playing_111) =
         Some (Manager.playing, 0,
               [Manager.CMD_WRONG_GUESS; Manager.CMD_WRONG_GUESS;
                Manager.CMD_WRONG_GUESS])).
Proof.
  intros g Hg. split; [|split].
  - intros es g' o H. exact (Manager_run_guessed es g g' o H Hg).
  - intros now buttonState rnd Hst. split.
    + unfold Manager.loop, Manager.displayDifficulty.
      cbn -[Manager.treatGuess]. rewrite Hst.
      cbn -[Manager.treatGuess]. rewrite Hg.
      destruct (Manager.treatGuess g) as [[[[] g2] o2]|f]; reflexivity.
    + intros g' o H.
      unfold Manager.loop, Manager.displayDifficulty, Manager.treatGuess,
        Manager.read_sequence, load in H.
      cbn in H. rewrite Hst in H. cbn in H. rewrite Hg in H.
      split_run; reflexivity.
  - intro rnd. split; reflexivity.
Qed.

Lemma C10_guessed_is_never_cleared_witness :
  Manager.guessed ManagerScenario.guess_received = true /\
  Manager.loop 0 HIGH (fun i => i) ManagerScenario.guess_received =
    (Manager.displayDifficulty ;; Manager.treatGuess)
      ManagerScenario.guess_received.
Proof.
  split.
  - reflexivity.
  - apply (C10_guessed_is_never_cleared ManagerScenario.guess_received);
      reflexivity.
Defined.

(** * Further properties of the sketches *)

(** ** The difficulty display *)

Lemma Manager_displayDifficulty_output g :
  Manager.displayDifficulty g =
    Ok (tt, g,
        map (fun i =>
               digitalWrite (nth (Z.to_nat i) Manager.ledPins 0)
                 (if Z.land (Z.shiftr (Manager.difficulty g) i) 1 =? 0
                  then LOW else HIGH))
          [0; 1; 2; 3]).
Proof. reflexivity. Qed.

Lemma ManagerPart000_displayDifficulty_output g :
  ManagerPart000.displayDifficulty g =
    Ok (tt, g,
        map (fun i =>
               digitalWrite (nth (Z.to_nat i) ManagerPart000.ledPins 0)
                 (if Z.land (Z.shiftr (ManagerPart000.difficulty g) i) 1 =? 0
                  then LOW else HIGH))
          [0; 1; 2; 3]).
Proof. reflexivity. Qed.

(** X1.  For a difficulty in [0,15], [displayDifficulty] changes no global
    and drives the four LEDs so that they show the difficulty in binary, the
    LED on pin 17 being the lowest bit; this holds in both manager
    sketches. *)
Theorem X1_displayDifficulty_shows_the_difficulty :
  forall (g : Manager.Globals) (h : ManagerPart000.Globals),
    0 <= Manager.difficulty g <= 15 ->
    0 <= ManagerPart000.difficulty h <= 15 ->
    globals_of (Manager.displayDifficulty g) = Some g /\
    shown Manager.ledPins (output_of (Manager.displayDifficulty g)) =
      Manager.difficulty g /\
    globals_of (ManagerPart000.displayDifficulty h) = Some h /\
    shown ManagerPart000.ledPins
      (output_of (ManagerPart000.displayDifficulty h)) =
      ManagerPart000.difficulty h.
Proof.
  intros g h Hg Hh.
  rewrite Manager_displayDifficulty_output.
  rewrite ManagerPart000_displayDifficulty_output.
  cbn [globals_of output_of].
  repeat split.
  - assert (E : Manager.difficulty g = 0 \/ Manager.difficulty g = 1 \/
                Manager.difficulty g = 2 \/ Manager.difficulty g = 3 \/
                Manager.difficulty g = 4 \/ Manager.difficulty g = 5 \/
                Manager.difficulty g = 6 \/ Manager.difficulty g = 7 \/
                Manager.difficulty g = 8 \/ Manager.difficulty g = 9 \/
                Manager.difficulty g = 10 \/ Manager.difficulty g = 11 \/
                Manager.difficulty g = 12 \/ Manager.difficulty g = 13 \/
                Manager.difficulty g = 14 \/ Manager.difficulty g = 15)
      by lia.
    repeat (destruct E as [E|E]); rewrite E; reflexivity.
  - assert (E : ManagerPart000.difficulty h = 0 \/
                ManagerPart000.difficulty h = 1 \/
                ManagerPart000.difficulty h = 2 \/
                ManagerPart000.difficulty h = 3 \/
                ManagerPart000.difficulty h = 4 \/
                ManagerPart000.difficulty h = 5 \/
                ManagerPart000.difficulty h = 6 \/
                ManagerPart000.difficulty h = 7 \/
                ManagerPart000.difficulty h = 8 \/
                ManagerPart000.difficulty h = 9 \/
                ManagerPart000.difficulty h = 10 \/
                ManagerPart000.difficulty h = 11 \/
                ManagerPart000.difficulty h = 12 \/
                ManagerPart000.difficulty h = 13 \/
                ManagerPart000.difficulty h = 14 \/
                ManagerPart000.difficulty h = 15)
      by lia.
    repeat (destruct E as [E|E]); rewrite E; reflexivity.
Qed.

Lemma X1_displayDifficulty_shows_the_difficulty_witness :
  (0 <= Manager.difficulty ManagerScenario.playing_111 <= 15 /\
   0 <= ManagerPart000.difficulty ManagerPart000Scenario.playing_111 <= 15) /\
  shown Manager.ledPins
    (output_of (Manager.displayDifficulty ManagerScenario.playing_111)) = 2.
Proof.
  split.
  - split; vm_compute; split; discriminate.
  - apply (X1_displayDifficulty_shows_the_difficulty
             ManagerScenario.playing_111
             ManagerPart000Scenario.playing_111);
      vm_compute; split; discriminate.
Defined.

Lemma globals_of_bind {G A B} (m : M G A) (k : A -> M G B) g a g1 o1 :
  m g = Ok (a, g1, o1) ->
  globals_of (bind m k g) = globals_of (k a g1).
Proof.
  intro H. unfold bind. rewrite H.
  destruct (k a g1) as [[[b g2] o2]|f]; reflexivity.
Qed.

Lemma Manager_increaseDifficulty_result g :
  Manager.increaseDifficulty g =
    Ok (tt, Manager.set_difficulty ((Manager.difficulty g + 1) mod 16) g,
        Serial_print "New difficulty: "
        :: Serial_print_num ((Manager.difficulty g + 1) mod 16)
        :: output_of
             (Manager.displayDifficulty
                (Manager.set_difficulty
                   ((Manager.difficulty g + 1) mod 16) g))).
Proof. reflexivity. Qed.

Lemma Manager_increase_loop n : forall i g,
  0 <= Manager.difficulty g <= 15 ->
  globals_of (for_loop n i (fun _ => Manager.increaseDifficulty) g) =
    Some (Manager.set_difficulty
            ((Manager.difficulty g + Z.of_nat n) mod 16) g).
Proof.
  induction n as [|n IH]; intros i g Hd.
  - cbn [for_loop]. cbn. rewrite Z.add_0_r, Z.mod_small by lia.
    destruct g; reflexivity.
  - cbn [for_loop].
    rewrite (globals_of_bind _ _ _ _ _ _ (Manager_increaseDifficulty_result g)).
    rewrite IH
      by (cbn; pose proof (Z.mod_pos_bound (Manager.difficulty g + 1) 16);
          lia).
    assert (E : ((Manager.difficulty g + 1) mod 16 + Z.of_nat n) mod 16 =
                (Manager.difficulty g + Z.of_nat (S n)) mod 16).
    { rewrite Zplus_mod_idemp_l, Nat2Z.inj_succ. f_equal. lia. }
    cbn [Manager.difficulty Manager.set_difficulty]. rewrite E.
    reflexivity.
Qed.

(** X2.  From a difficulty in [0,15], [n] calls of [increaseDifficulty]
    leave the difficulty at [(difficulty + n) mod 16] and every other global
    as it was; sixteen calls bring the globals back to where they were. *)
Theorem X2_sixteen_increases :
  forall g n,
    0 <= Manager.difficulty g <= 15 ->
    globals_of (Manager_increase_times n g) =
      Some (Manager.set_difficulty
              ((Manager.difficulty g + Z.of_nat n) mod 16) g) /\
    globals_of (Manager_increase_times 16 g) = Some g.
Proof.
  intros g n Hd. unfold Manager_increase_times. split.
  - now apply Manager_increase_loop.
  - rewrite Manager_increase_loop by assumption.
    replace ((Manager.difficulty g + Z.of_nat 16) mod 16)
      with (Manager.difficulty g).
    + destruct g; reflexivity.
    + change (Z.of_nat 16) with (1 * 16).
      rewrite Z.mod_add by lia. rewrite Z.mod_small; lia.
Qed.

Lemma X2_sixteen_increases_witness :
  0 <= Manager.difficulty ManagerScenario.playing_111 <= 15 /\
  globals_of (Manager_increase_times 16 ManagerScenario.playing_111) =
    Some ManagerScenario.playing_111.
Proof.
  split.
  - vm_compute. split; discriminate.
  - apply (X2_sixteen_increases ManagerScenario.playing_111 16).
    vm_compute. split; discriminate.
Defined.

Lemma generateSequence_returns rnd g u g' o :
  0 <= Manager.difficulty g <= 15 ->
  List.length (Manager.sequence g) = Z.to_nat Manager.maxSequenceLength ->
  Manager.generateSequence rnd g = Ok (u, g', o) ->
  Manager.difficulty g <= 14 /\
  g' = Manager.set_currentStep 0
         (Manager.set_sequence
            (filled rnd (Z.to_nat (Manager.difficulty g + 1)) 0
               (Manager.sequence g)) g) /\
  o = [Serial_print "Generating random sequence"].
Proof.
  intros Hd Hlen H.
  destruct (Z_le_gt_dec (Manager.difficulty g) 14) as [Hle|Hgt].
  - rewrite generateSequence_in_bounds in H
      by (rewrite ?Hlen; cbn; lia).
    inversion H; subst. auto.
  - rewrite generateSequence_overflow in H
      by (rewrite ?Hlen; cbn; lia).
    discriminate.
Qed.

Lemma generateSequence_faults rnd g f :
  0 <= Manager.difficulty g <= 15 ->
  List.length (Manager.sequence g) = Z.to_nat Manager.maxSequenceLength ->
  Manager.generateSequence rnd g = Fail f ->
  f = OutOfBounds 15 /\ Manager.difficulty g = 15.
Proof.
  intros Hd Hlen H.
  destruct (Z_le_gt_dec (Manager.difficulty g) 14) as [Hle|Hgt].
  - rewrite generateSequence_in_bounds in H
      by (rewrite ?Hlen; cbn; lia).
    discriminate.
  - rewrite generateSequence_overflow in H
      by (rewrite ?Hlen; cbn; lia).
    rewrite Hlen in H. inversion H; subst. split; [reflexivity|lia].
Qed.

(** Takes apart an equation [action g = r] along the tests the action
    makes, whatever the result [r]. *)
Ltac split_result :=
  repeat (cbn in *;
    match goal with
    | H : Ok _ = Ok _ |- _ => inversion H; subst; clear H
    | H : Fail _ = Fail _ |- _ => inversion H; subst; clear H
    | H : Fail _ = Ok _ |- _ => discriminate H
    | H : Ok _ = Fail _ |- _ => discriminate H
    | H : context [match ?x with _ => _ end] |- _ => destruct x eqn:?
    | H : context [if ?c then _ else _] |- _ => destruct c eqn:?
    end).

(** Turns the outcome of the tests into facts of arithmetic. *)
Ltac tests_to_facts :=
  repeat match goal with
    | H : (_ <? _) = true |- _ => apply Z.ltb_lt in H
    | H : (_ <? _) = false |- _ => apply Z.ltb_ge in H
    | H : (_ <=? _) = true |- _ => apply Z.leb_le in H
    | H : (_ <=? _) = false |- _ => apply Z.leb_gt in H
    | H : (_ =? _) = true |- _ => apply Z.eqb_eq in H
    | H : (_ =? _) = false |- _ => apply Z.eqb_neq in H
    | H : in_bounds _ _ = true |- _ => apply in_bounds_spec in H
    | H : in_bounds _ _ = false |- _ => apply in_bounds_false in H
    end.

(** Closes the arithmetic and the case distinctions left of an invariant. *)
Ltac inv_finish Hgame :=
  rewrite ?filled_length; unfold wrap8 in *;
  repeat match goal with
    | |- _ /\ _ => split
    | |- Forall _ [] => constructor
    | |- Forall _ (_ :: _) => constructor
    | |- _ \/ _ -> _ => intros [?|?]; try discriminate
    end;
  auto;
  try (first [ left; reflexivity | right; left; reflexivity
             | right; right; left; reflexivity
             | right; right; right; reflexivity ]);
  try congruence;
  try (destruct Hgame as [? ?]; [solve [auto]|]);
  try (Z.div_mod_to_equations; lia).

Lemma Manager_handle_inv e g :
  Manager_inv g ->
  match Manager.handle e g with
  | Ok (_, g', o) => Manager_inv g' /\ Forall Manager_command (sent o)
  | Fail f =>
      (f = OutOfBounds 15 /\ Manager.state g = Manager.idle /\
       Manager.difficulty g = 15) \/
      (f = OutOfBounds 0 /\ e = Manager.DataRecv [])
  end.
Proof.
  intros (Hd & Hlen & Hgame).
  destruct (Manager.handle e g) as [[[[] g'] o]|f] eqn:H.
  - destruct e as [now buttonState rnd|t|data|ok]; cbn [Manager.handle] in H.
    + unfold Manager.loop, Manager.updateButtonState,
        Manager.increaseDifficulty, Manager.displayDifficulty,
        Manager.treatGuess, Manager.read_sequence, Manager.alertBlink,
        Manager.sendGameStart, load in H.
      split_result.
      all: repeat match goal with
        | E : Manager.generateSequence _ _ = Ok _ |- _ =>
            apply generateSequence_returns in E;
            [destruct E as (? & ? & ?); subst | cbn; assumption ..]
        end.
      all: tests_to_facts.
      all: unfold Manager_inv, Manager_command; cbn.
      all: inv_finish Hgame.
    + unfold Manager.onButtonPress in H. split_result.
      all: unfold Manager_inv, Manager_command; cbn; inv_finish Hgame.
    + unfold Manager.onDataRecv, load in H. split_result.
      all: unfold Manager_inv, Manager_command; cbn; inv_finish Hgame.
    + cbn in H. inversion H; subst.
      unfold Manager_inv, Manager_command; cbn; inv_finish Hgame.
  - destruct e as [now buttonState rnd|t|data|ok]; cbn [Manager.handle] in H.
    + unfold Manager.loop, Manager.updateButtonState,
        Manager.increaseDifficulty, Manager.displayDifficulty,
        Manager.treatGuess, Manager.read_sequence, Manager.alertBlink,
        Manager.sendGameStart, load in H.
      split_result.
      all: repeat match goal with
        | E : Manager.generateSequence _ _ = Fail _ |- _ =>
            apply generateSequence_faults in E;
            [destruct E as (? & ?); subst | cbn; assumption ..]
        end.
      all: tests_to_facts.
      all: try (left; cbn in *; repeat split; auto; fail).
      exfalso. destruct Hgame as [? ?]; [auto|].
      rewrite Hlen in *. cbn in *. lia.
    + unfold Manager.onButtonPress in H. split_result.
    + unfold Manager.onDataRecv, load in H. split_result.
      tests_to_facts. destruct data; [now right|]. cbn in *. lia.
    + cbn in H. discriminate.
Qed.

Lemma sent_app o1 o2 : sent (o1 ++ o2) = sent o1 ++ sent o2.
Proof.
  induction o1 as [|e o1 IH]; [reflexivity|].
  destruct e; cbn; rewrite ?IH; reflexivity.
Qed.

Lemma Manager_initial_inv : Manager_inv Manager.initial.
Proof.
  repeat split; cbn; try lia; intros [H|H]; discriminate.
Qed.

Lemma Manager_run_inv es : forall g,
  Manager_inv g ->
  match Manager.run es g with
  | Ok (_, g', o) => Manager_inv g' /\ Forall Manager_command (sent o)
  | Fail f =>
      f = OutOfBounds 15 \/
      (f = OutOfBounds 0 /\ In (Manager.DataRecv []) es)
  end.
Proof.
  induction es as [|e rest IH]; intros g Hg.
  - cbn. split; [assumption|constructor].
  - cbn [Manager.run]. unfold bind.
    pose proof (Manager_handle_inv e g Hg) as He.
    destruct (Manager.handle e g) as [[[[] g1] o1]|f].
    + destruct He as [Hg1 Ho1]. specialize (IH g1 Hg1).
      destruct (Manager.run rest g1) as [[[[] g2] o2]|f].
      * destruct IH as [Hg2 Ho2]. split; [assumption|].
        rewrite sent_app. apply Forall_app. now split.
      * destruct IH as [->|[-> Hin]]; [now left|right].
        split; [reflexivity|now right].
    + destruct He as [(-> & _ & _)|[-> ->]]; [now left|right].
      split; [reflexivity|now left].
Qed.

(** X3.  Whatever happens to the manager after power-on, as long as it
    keeps running the difficulty stays in [0,15] and the array keeps its 15
    cells; in countdown and in playing the cursor lies between 0 and the
    difficulty, and the difficulty is at most 14, so that the read of
    [sequence[currentStep]] in [treatGuess] is inside the array. *)
Theorem X3_manager_cursor_stays_inside_the_game :
  forall es g o,
    Manager.run es Manager.initial = Ok (tt, g, o) ->
    0 <= Manager.difficulty g <= 15 /\
    List.length (Manager.sequence g) = 15%nat /\
    (Manager.state g = Manager.countdown \/
     Manager.state g = Manager.playing ->
     0 <= Manager.currentStep g <= Manager.difficulty g /\
     Manager.difficulty g <= 14).
Proof.
  intros es g o H.
  pose proof (Manager_run_inv es Manager.initial Manager_initial_inv) as R.
  rewrite H in R. exact (proj1 R).
Qed.

Lemma X3_manager_cursor_stays_inside_the_game_witness :
  Manager.run [Manager.ButtonChange 100] Manager.initial =
    Ok (tt, FurtherScenario.first_transition, []) /\
  0 <= Manager.difficulty FurtherScenario.first_transition <= 15.
Proof.
  assert (H : Manager.run [Manager.ButtonChange 100] Manager.initial =
              Ok (tt, FurtherScenario.first_transition, []))
    by (vm_compute; reflexivity).
  split.
  - exact H.
  - exact (proj1 (X3_manager_cursor_stays_inside_the_game _ _ _ H)).
Defined.




Lemma Manager_long_press_pass now rnd g :
  Manager.state g = Manager.idle ->
  Manager.buttonInter g = true ->
  0 < Manager.buttonPressStart g ->
  2000 <= wrap32 (now - Manager.buttonPressStart g) ->
  List.length (Manager.sequence g) = Z.to_nat Manager.maxSequenceLength ->
  0 <= Manager.difficulty g <= 14 ->
  Manager.loop now HIGH rnd g =
    Ok (tt,
        Manager.set_buttonInter false
          (Manager.set_longPressed false
             (Manager.set_state Manager.countdown
                (Manager.set_currentStep 0
                   (Manager.set_sequence
                      (filled rnd (Z.to_nat (Manager.difficulty g + 1)) 0
                         (Manager.sequence g))
                      (Manager.set_buttonPressStart 0
                         (Manager.set_longPressed true g)))))),
        [Serial_print "Long press detected!";
         Serial_print "Generating random sequence"]).
Proof.
  intros Hst Hbi Hstart Hheld Hlen Hd.
  unfold Manager.loop, Manager.updateButtonState. cbn.
  rewrite Hst. cbn. rewrite Hbi. cbn.
  replace (0 <? Manager.buttonPressStart g) with true
    by (symmetry; apply Z.ltb_lt; lia).
  cbn. unfold Manager.longPressDuration.
  replace (2000 <=? wrap32 (now - Manager.buttonPressStart g)) with true
    by (symmetry; apply Z.leb_le; lia).
  cbn. rewrite generateSequence_in_bounds by (cbn; rewrite ?Hlen; cbn; lia).
  reflexivity.
Qed.

(** X6.  In idle with a transition pending, the button released after a
    recorded press of at least 2000 ms and the difficulty at most 14, two
    passes through [loop] start a game: the manager ends in playing with the
    cursor at 0, the difficulty unchanged and [difficulty + 1] symbols of
    {1, 2, 3} in the array; GAME_START is the only byte sent, and the
    alert takes three blinks of 500 + 500 ms and a pause of 1000 ms. *)
Theorem X6_long_press_starts_a_game :
  forall g now now' buttonState rnd rnd',
    Manager.state g = Manager.idle ->
    Manager.buttonInter g = true ->
    0 < Manager.buttonPressStart g ->
    2000 <= wrap32 (now - Manager.buttonPressStart g) ->
    List.length (Manager.sequence g) = Z.to_nat Manager.maxSequenceLength ->
    0 <= Manager.difficulty g <= 14 ->
    exists g' o,
      Manager.run [Manager.Loop now HIGH rnd;
                   Manager.Loop now' buttonState rnd'] g = Ok (tt, g', o) /\
      Manager.state g' = Manager.playing /\
      Manager.currentStep g' = 0 /\
      Manager.difficulty g' = Manager.difficulty g /\
      sent o = [Manager.CMD_GAME_START] /\
      delays o = [500; 500; 500; 500; 500; 500; 1000] /\
      forall j, 0 <= j <= Manager.difficulty g ->
        symbol (nth (Z.to_nat j) (Manager.sequence g') 0).
Proof.
  intros g now now' buttonState rnd rnd' Hst Hbi Hstart Hheld Hlen Hd.
  cbn [Manager.run Manager.handle]. unfold bind at 1.
  rewrite Manager_long_press_pass by assumption.
  do 2 eexists. split; [reflexivity|].
  cbn. repeat split.
  intros j Hj.
  rewrite filled_nth by (rewrite ?Hlen; cbn; lia).
  destruct (Z.leb_spec 0 j),
    (Z.ltb_spec j (0 + Z.of_nat (Z.to_nat (Manager.difficulty g + 1))));
    simpl; try lia. apply random_1_4_symbol.
Qed.

Lemma X6_long_press_starts_a_game_witness :
  (Manager.state FurtherScenario.release_pending = Manager.idle /\
   Manager.buttonInter FurtherScenario.release_pending = true /\
   2000 <=
     wrap32 (3000 - Manager.buttonPressStart
                      FurtherScenario.release_pending)) /\
  exists g' o,
    Manager.run [Manager.Loop 3000 HIGH (fun i => i);
                 Manager.Loop 3001 HIGH (fun i => i)]
      FurtherScenario.release_pending = Ok (tt, g', o) /\
    Manager.state g' = Manager.playing /\
    sent o = [Manager.CMD_GAME_START].
Proof.
  split.
  - repeat split; vm_compute; discriminate.
  - destruct (X6_long_press_starts_a_game FurtherScenario.release_pending
                3000 3001 HIGH (fun i => i) (fun i => i))
      as (g' & o & Hrun & Hst & _ & _ & Hsent & _).
    + reflexivity.
    + reflexivity.
    + vm_compute. reflexivity.
    + vm_compute. discriminate.
    + reflexivity.
    + vm_compute. split; discriminate.
    + exists g', o. split; [exact Hrun|]. split; [exact Hst|exact Hsent].
Defined.

Lemma ManagerPart000_right_guess h :
  ManagerPart000.state h = ManagerPart000.playing ->
  in_bounds (ManagerPart000.sequence h) (ManagerPart000.currentStep h)
    = true ->
  0 <= ManagerPart000.currentStep h < 255 ->
  let cur := ManagerPart000.currentStep h in
  let sym := nth (Z.to_nat cur) (ManagerPart000.sequence h) 0 in
  let last := ManagerPart000.difficulty h <? cur + 1 in
  ManagerPart000.onDataRecv [sym] h =
    Ok (tt,
        (if last
         then ManagerPart000.set_state ManagerPart000.game_over
                (ManagerPart000.set_currentStep (cur + 1) h)
         else ManagerPart000.set_currentStep (cur + 1) h),
        [Serial_print "Received guess: "; Serial_print_num sym;
         esp_now_send (if last then ManagerPart000.CMD_GAME_WON
                       else ManagerPart000.CMD_GOOD_GUESS)]).
Proof.
  intros Hst Hb Hcur cur sym last.
  unfold ManagerPart000.onDataRecv, ManagerPart000.read_sequence, load.
  cbn. rewrite Hst. cbn. rewrite Hb. cbn. fold cur. fold sym.
  rewrite Z.eqb_refl. cbn. rewrite wrap8_small by (unfold cur; lia).
  fold last. destruct last; reflexivity.
Qed.

Lemma ManagerPart000_deliver_cons b rest h :
  ManagerPart000.run (ManagerPart000_deliver (b :: rest)) h =
    match ManagerPart000.onDataRecv [b] h with
    | Ok (_, h1, o1) =>
        match ManagerPart000.run (ManagerPart000_deliver rest) h1 with
        | Ok (u, h2, o2) => Ok (u, h2, o1 ++ o2)
        | Fail f => Fail f
        end
    | Fail f => Fail f
    end.
Proof.
  cbn [ManagerPart000_deliver map ManagerPart000.run ManagerPart000.handle].
  unfold bind. destruct (ManagerPart000.onDataRecv [b] h) as [[[[] ?] ?]|];
    reflexivity.
Qed.

Lemma ManagerPart000_winning_run n : forall h,
  ManagerPart000.state h = ManagerPart000.playing ->
  List.length (ManagerPart000.sequence h) =
    Z.to_nat ManagerPart000.maxSequenceLength ->
  0 <= ManagerPart000.currentStep h ->
  ManagerPart000.difficulty h - ManagerPart000.currentStep h = Z.of_nat n ->
  ManagerPart000.difficulty h <= 14 ->
  exists h' o,
    ManagerPart000.run
      (ManagerPart000_deliver
         (winning_guesses (ManagerPart000.sequence h)
            (ManagerPart000.currentStep h) (S n))) h = Ok (tt, h', o) /\
    ManagerPart000.state h' = ManagerPart000.game_over /\
    ManagerPart000.currentStep h' = ManagerPart000.difficulty h + 1 /\
    sent o = repeat ManagerPart000.CMD_GOOD_GUESS n
             ++ [ManagerPart000.CMD_GAME_WON].
Proof.
  induction n as [|n IH]; intros h Hst Hlen Hcur Hrest Hd.
  - cbn [winning_guesses indices map].
    rewrite ManagerPart000_deliver_cons.
    rewrite ManagerPart000_right_guess
      by (auto; try lia; apply in_bounds_spec; rewrite Hlen; cbn; lia).
    replace (ManagerPart000.difficulty h <?
               ManagerPart000.currentStep h + 1) with true
      by (symmetry; apply Z.ltb_lt; lia).
    cbn. do 2 eexists. repeat split. cbn. lia.
  - change (winning_guesses (ManagerPart000.sequence h)
              (ManagerPart000.currentStep h) (S (S n)))
      with (nth (Z.to_nat (ManagerPart000.currentStep h))
              (ManagerPart000.sequence h) 0
            :: winning_guesses (ManagerPart000.sequence h)
                 (ManagerPart000.currentStep h + 1) (S n)).
    rewrite ManagerPart000_deliver_cons.
    rewrite ManagerPart000_right_guess
      by (auto; try lia; apply in_bounds_spec; rewrite Hlen; cbn; lia).
    replace (ManagerPart000.difficulty h <?
               ManagerPart000.currentStep h + 1) with false
      by (symmetry; apply Z.ltb_ge; lia).
    destruct (IH (ManagerPart000.set_currentStep
                    (ManagerPart000.currentStep h + 1) h))
      as (h' & o & Hrun & Hst' & Hcur' & Hsent);
      try (cbn; auto; lia).
    cbn [ManagerPart000.sequence ManagerPart000.currentStep
         ManagerPart000.difficulty ManagerPart000.set_currentStep]
      in Hrun, Hcur'.
    rewrite Hrun.
    do 2 eexists. split; [reflexivity|]. repeat split; auto.
    cbn. rewrite Hsent. reflexivity.
Qed.

(** X7.  In the other manager sketch, while playing, the symbols of the
    secret from the cursor to the end, delivered one payload each, are
    answered with GOOD_GUESS for each but the last and GAME_WON for the last;
    the sketch ends in game_over with the cursor one past the difficulty. *)
Theorem X7_part000_secret_wins :
  forall h,
    ManagerPart000.state h = ManagerPart000.playing ->
    List.length (ManagerPart000.sequence h) =
      Z.to_nat ManagerPart000.maxSequenceLength ->
    0 <= ManagerPart000.currentStep h <= ManagerPart000.difficulty h ->
    ManagerPart000.difficulty h <= 14 ->
    let d := ManagerPart000.difficulty h in
    let cur := ManagerPart000.currentStep h in
    ManagerPart000_outcome
      (ManagerPart000.run
         (ManagerPart000_deliver
            (winning_guesses (ManagerPart000.sequence h) cur
               (Z.to_nat (d + 1 - cur)))) h) =
      Some (ManagerPart000.game_over, d + 1,
            repeat ManagerPart000.CMD_GOOD_GUESS (Z.to_nat (d - cur))
            ++ [ManagerPart000.CMD_GAME_WON]).
Proof.
  intros h Hst Hlen Hcur Hd d cur.
  replace (Z.to_nat (d + 1 - cur)) with (S (Z.to_nat (d - cur)))
    by (unfold d, cur; lia).
  destruct (ManagerPart000_winning_run (Z.to_nat (d - cur)) h)
    as (h' & o & Hrun & Hst' & Hcur' & Hsent);
    auto; try (unfold d, cur; lia).
  fold cur in Hrun. rewrite Hrun. cbn. rewrite Hst', Hcur', Hsent.
  reflexivity.
Qed.

Lemma X7_part000_secret_wins_witness :
  (ManagerPart000.state ManagerPart000Scenario.playing_111 =
     ManagerPart000.playing /\
   ManagerPart000.difficulty ManagerPart000Scenario.playing_111 <= 14) /\
  ManagerPart000_outcome
    (ManagerPart000.run (ManagerPart000_deliver [1; 1; 1])
       ManagerPart000Scenario.playing_111) =
    Some (ManagerPart000.game_over, 3,
          [ManagerPart000.CMD_GOOD_GUESS; ManagerPart000.CMD_GOOD_GUESS;
           ManagerPart000.CMD_GAME_WON]).
Proof.
  split.
  - split; [reflexivity|vm_compute; discriminate].
  - apply (X7_part000_secret_wins ManagerPart000Scenario.playing_111).
    + reflexivity.
    + reflexivity.
    + vm_compute. split; discriminate.
    + vm_compute. discriminate.
Defined.

Lemma Manager_deliver_cons now buttonState rnd b rest g :
  Manager.run (Manager_deliver now buttonState rnd (b :: rest)) g =
    match (Manager.onDataRecv [b] ;; Manager.loop now buttonState rnd) g with
    | Ok (_, g1, o1) =>
        match Manager.run (Manager_deliver now buttonState rnd rest) g1 with
        | Ok (u, g2, o2) => Ok (u, g2, o1 ++ o2)
        | Fail f => Fail f
        end
    | Fail f => Fail f
    end.
Proof.
  cbn [Manager_deliver flat_map app Manager.run Manager.handle].
  unfold bind.
  destruct (Manager.onDataRecv [b] g) as [[[[] g1] o1]|]; [|reflexivity].
  destruct (Manager.loop now buttonState rnd g1) as [[[[] g2] o2]|];
    [|reflexivity].
  destruct (Manager.run _ g2) as [[[[] g3] o3]|]; [|reflexivity].
  rewrite app_assoc. reflexivity.
Qed.

Lemma Manager_right_guess_pass now buttonState rnd g :
  Manager.state g = Manager.playing ->
  in_bounds (Manager.sequence g) (Manager.currentStep g) = true ->
  0 <= Manager.currentStep g < 255 ->
  let cur := Manager.currentStep g in
  let sym := nth (Z.to_nat cur) (Manager.sequence g) 0 in
  let last := Manager.difficulty g <? cur + 1 in
  exists g' o,
    (Manager.onDataRecv [sym] ;; Manager.loop now buttonState rnd) g =
      Ok (tt, g', o) /\
    Manager.state g' =
      (if last then Manager.game_over else Manager.playing) /\
    Manager.currentStep g' = cur + 1 /\
    Manager.difficulty g' = Manager.difficulty g /\
    Manager.sequence g' = Manager.sequence g /\
    sent o = [if last then Manager.CMD_GAME_WON
              else Manager.CMD_GOOD_GUESS].
Proof.
  intros Hst Hb Hcur cur sym last.
  unfold Manager.onDataRecv, Manager.loop, Manager.displayDifficulty,
    Manager.treatGuess, Manager.read_sequence, load.
  cbn. rewrite Hst. cbn. rewrite ?Hst. cbn. rewrite Hb. cbn.
  fold cur. fold sym.
  rewrite Z.eqb_refl. cbn. rewrite wrap8_small by (unfold cur; lia).
  fold last. destruct last; cbn; do 2 eexists;
    (split; [reflexivity|]); cbn; repeat split; auto.
Qed.

Lemma Manager_winning_run now buttonState rnd n : forall g,
  Manager.state g = Manager.playing ->
  List.length (Manager.sequence g) = Z.to_nat Manager.maxSequenceLength ->
  0 <= Manager.currentStep g ->
  Manager.difficulty g - Manager.currentStep g = Z.of_nat n ->
  Manager.difficulty g <= 14 ->
  exists g' o,
    Manager.run
      (Manager_deliver now buttonState rnd
         (winning_guesses (Manager.sequence g) (Manager.currentStep g)
            (S n))) g = Ok (tt, g', o) /\
    Manager.state g' = Manager.game_over /\
    Manager.currentStep g' = Manager.difficulty g + 1 /\
    sent o = repeat Manager.CMD_GOOD_GUESS n ++ [Manager.CMD_GAME_WON].
Proof.
  induction n as [|n IH]; intros g Hst Hlen Hcur Hrest Hd.
  - cbn [winning_guesses indices map].
    rewrite Manager_deliver_cons.
    destruct (Manager_right_guess_pass now buttonState rnd g)
      as (g1 & o1 & Hrun & Hst1 & Hcur1 & Hd1 & Hseq1 & Hsent1);
      auto; try lia; try (apply in_bounds_spec; rewrite Hlen; cbn; lia).
    rewrite Hrun. cbn.
    replace (Manager.difficulty g <? Manager.currentStep g + 1) with true
      in * by (symmetry; apply Z.ltb_lt; lia).
    do 2 eexists. split; [reflexivity|]. rewrite app_nil_r.
    repeat split; auto. lia.
  - change (winning_guesses (Manager.sequence g) (Manager.currentStep g)
              (S (S n)))
      with (nth (Z.to_nat (Manager.currentStep g)) (Manager.sequence g) 0
            :: winning_guesses (Manager.sequence g)
                 (Manager.currentStep g + 1) (S n)).
    rewrite Manager_deliver_cons.
    destruct (Manager_right_guess_pass now buttonState rnd g)
      as (g1 & o1 & Hrun & Hst1 & Hcur1 & Hd1 & Hseq1 & Hsent1);
      auto; try lia; try (apply in_bounds_spec; rewrite Hlen; cbn; lia).
    rewrite Hrun.
    replace (Manager.difficulty g <? Manager.currentStep g + 1) with false
      in * by (symmetry; apply Z.ltb_ge; lia).
    destruct (IH g1) as (g2 & o2 & Hrun2 & Hst2 & Hcur2 & Hsent2);
      try (rewrite ?Hseq1, ?Hd1, ?Hcur1; auto; lia).
    rewrite Hseq1, Hcur1 in Hrun2. rewrite Hrun2.
    do 2 eexists. split; [reflexivity|].
    rewrite sent_app, Hsent1, Hsent2. repeat split; auto.
    rewrite Hcur2, Hd1. reflexivity.
Qed.

(** X8.  In the manager, while playing, the symbols of the secret from the
    cursor to the end, each delivered and followed by one pass through
    [loop], are answered with GOOD_GUESS for each but the last and GAME_WON
    for the last; the manager ends in game_over with the cursor one past the
    difficulty. *)
Theorem X8_manager_secret_wins :
  forall g now buttonState rnd,
    Manager.state g = Manager.playing ->
    List.length (Manager.sequence g) = Z.to_nat Manager.maxSequenceLength ->
    0 <= Manager.currentStep g <= Manager.difficulty g ->
    Manager.difficulty g <= 14 ->
    let d := Manager.difficulty g in
    let cur := Manager.currentStep g in
    Manager_outcome
      (Manager.run
         (Manager_deliver now buttonState rnd
            (winning_guesses (Manager.sequence g) cur
               (Z.to_nat (d + 1 - cur)))) g) =
      Some (Manager.game_over, d + 1,
            repeat Manager.CMD_GOOD_GUESS (Z.to_nat (d - cur))
            ++ [Manager.CMD_GAME_WON]).
Proof.
  intros g now buttonState rnd Hst Hlen Hcur Hd d cur.
  replace (Z.to_nat (d + 1 - cur)) with (S (Z.to_nat (d - cur)))
    by (unfold d, cur; lia).
  destruct (Manager_winning_run now buttonState rnd (Z.to_nat (d - cur)) g)
    as (g' & o & Hrun & Hst' & Hcur' & Hsent);
    auto; try (unfold d, cur; lia).
  fold cur in Hrun. rewrite Hrun. cbn. rewrite Hst', Hcur', Hsent.
  reflexivity.
Qed.

Lemma X8_manager_secret_wins_witness :
  (Manager.state ManagerScenario.playing_111 = Manager.playing /\
   Manager.difficulty ManagerScenario.playing_111 <= 14) /\
  Manager_outcome
    (Manager.run (Manager_deliver 0 HIGH (fun i => i) [1; 1; 1])
       ManagerScenario.playing_111) =
    Some (Manager.game_over, 3,
          [Manager.CMD_GOOD_GUESS; Manager.CMD_GOOD_GUESS;
           Manager.CMD_GAME_WON]).
Proof.
  split.
  - split; [reflexivity|vm_compute; discriminate].
  - apply (X8_manager_secret_wins ManagerScenario.playing_111
             0 HIGH (fun i => i)).
    + reflexivity.
    + reflexivity.
    + vm_compute. split; discriminate.
    + vm_compute. discriminate.
Defined.

(** Runs an action on globals given field by field. *)
Ltac run_cases :=
  repeat (cbn;
    change (Pos.to_nat 1) with 1%nat;
    change (Pos.to_nat 2) with 2%nat;
    change (Pos.to_nat 3) with 3%nat;
    cbn;
    match goal with
    | |- context [if ?c then _ else _] => destruct c eqn:?
    | |- context [match ?x with _ => _ end] => destruct x eqn:?
    end).

Lemma Remote_handle_inv e g :
  Remote_inv g ->
  Remote_possible e ->
  exists g' o,
    Remote.handle e g = Ok (tt, g', o) /\
    Remote_inv g' /\
    Forall (fun b => 0 <= b <= 3) (sent o).
Proof.
  destruct g as [lsm st ss rg wg ws bp ldt lsu lbu lblu lk].
  unfold Remote_inv. cbn. intros (Hlk & Hbp & Hldt & Hlsm) He.
  destruct bp as [|b0 [|b1 [|b2 [|]]]]; try discriminate.
  destruct ldt as [|t0 [|t1 [|t2 [|]]]]; try discriminate.
  destruct e as [now queued|i t|data|ok]; cbn [Remote.handle].
  - unfold Remote.loop, Remote.breatheLeds, Remote.sendButtonPress,
      Remote.read_buttonPressed, Remote.write_buttonPressed, load, store.
    change (Z.to_nat Remote.buttonsCount) with 3%nat.
    destruct st; cbn in Hlk; subst lk; run_cases;
      do 2 eexists; (split; [reflexivity|]); cbn;
      repeat split; auto; try lia;
      try (vm_compute; discriminate);
      repeat (constructor; try (vm_compute; split; discriminate)).
  - cbn in He. unfold Remote.buttonsCount in He.
    assert (Hi : i = 0 \/ i = 1 \/ i = 2) by lia.
    unfold Remote.onButtonPress, Remote.read_lastDebounceTime,
      Remote.write_buttonPressed, Remote.write_lastDebounceTime, load, store.
    destruct Hi as [-> | [-> | ->]]; run_cases;
      do 2 eexists; (split; [reflexivity|]); cbn;
      repeat split; auto; try lia.
  - cbn in He. destruct data as [|b rest]; [contradiction|].
    unfold Remote.onDataRecv, load.
    run_cases; do 2 eexists; (split; [reflexivity|]); cbn;
      repeat split; auto; try lia.
  - unfold Remote.onDataSent.
    destruct ok; cbn; do 2 eexists; (split; [reflexivity|]); cbn;
      repeat split; auto; try lia; repeat (constructor; try lia).
Qed.

Lemma Remote_initial_inv : Remote_inv Remote.initial.
Proof. repeat split; cbn; lia. Qed.

Lemma Remote_run_inv es : forall g,
  Remote_inv g ->
  Forall Remote_possible es ->
  exists g' o,
    Remote.run es g = Ok (tt, g', o) /\
    Remote_inv g' /\
    Forall (fun b => 0 <= b <= 3) (sent o).
Proof.
  induction es as [|e rest IH]; intros g Hg Hes.
  - do 2 eexists. split; [reflexivity|]. split; [assumption|constructor].
  - inversion Hes as [|? ? He Hrest]; subst.
    destruct (Remote_handle_inv e g Hg He) as (g1 & o1 & H1 & Hg1 & Ho1).
    destruct (IH g1 Hg1 Hrest) as (g2 & o2 & H2 & Hg2 & Ho2).
    exists g2, (o1 ++ o2). split.
    + cbn [Remote.run]. unfold bind. rewrite H1, H2. reflexivity.
    + split; [assumption|]. rewrite sent_app. apply Forall_app. now split.
Qed.

(** X9.  After power-on, under the events the hardware can produce, the
    remote never faults: no array is indexed out of bounds and the retry loop
    of [onDataSent] ends.  Its two arrays keep their three cells, and
    [locked] is set exactly while the state is correct, wrong or won. *)
Theorem X9_remote_never_faults_and_locks_while_displaying :
  forall es,
    Forall Remote_possible es ->
    exists g o,
      Remote.run es Remote.initial = Ok (tt, g, o) /\
      (Remote.locked g = true <->
       Remote.state g = Remote.correct \/ Remote.state g = Remote.wrong \/
       Remote.state g = Remote.won) /\
      List.length (Remote.buttonPressed g) = 3%nat /\
      List.length (Remote.lastDebounceTime g) = 3%nat.
Proof.
  intros es Hes.
  destruct (Remote_run_inv es Remote.initial Remote_initial_inv Hes)
    as (g & o & Hrun & (Hlk & Hbp & Hldt & _) & _).
  exists g, o. repeat split; auto.
  - rewrite Hlk. destruct (Remote.state g); cbn; intro; auto; discriminate.
  - rewrite Hlk.
    intros [H|[H|H]]; rewrite H; reflexivity.
Qed.

Lemma X9_remote_never_faults_and_locks_while_displaying_witness :
  Forall Remote_possible
    [Remote.ButtonFall 2 500; Remote.DataRecv [Remote.CMD_GAME_START];
     Remote.Loop 600 (fun _ => true); Remote.DataSent false] /\
  exists g o,
    Remote.run
      [Remote.ButtonFall 2 500; Remote.DataRecv [Remote.CMD_GAME_START];
       Remote.Loop 600 (fun _ => true); Remote.DataSent false]
      Remote.initial = Ok (tt, g, o) /\
    List.length (Remote.buttonPressed g) = 3%nat.
Proof.
  assert (H : Forall Remote_possible
                [Remote.ButtonFall 2 500;
                 Remote.DataRecv [Remote.CMD_GAME_START];
                 Remote.Loop 600 (fun _ => true); Remote.DataSent false]).
  { repeat constructor; vm_compute; discriminate. }
  split.
  - exact H.
  - destruct (X9_remote_never_faults_and_locks_while_displaying _ H)
      as (g & o & Hrun & _ & Hbp & _).
    exists g, o. split; [exact Hrun|exact Hbp].
Defined.

(** X10.  Every byte the remote transmits after power-on lies in [0,3],
    and every byte transmitted by a pass through [loop] is a button code 1,
    2 or 3 (a 0 can only be the [lastSentMessage] that [onDataSent] resends
    before any button was sent). *)
Theorem X10_remote_sends_button_codes :
  forall es,
    Forall Remote_possible es ->
    Forall (fun b => 0 <= b <= 3)
      (sent (output_of (Remote.run es Remote.initial))) /\
    forall g now queued,
      Remote_inv g ->
      Forall (fun b => 1 <= b <= 3)
        (sent (output_of (Remote.loop now queued g))).
Proof.
  intros es Hes. split.
  - destruct (Remote_run_inv es Remote.initial Remote_initial_inv Hes)
      as (g & o & Hrun & _ & Ho).
    rewrite Hrun. exact Ho.
  - intros g now queued.
    destruct g as [lsm st ss rg wg ws bp ldt lsu lbu lblu lk].
    unfold Remote_inv. cbn. intros (Hlk & Hbp & Hldt & Hlsm).
    destruct bp as [|b0 [|b1 [|b2 [|]]]]; try discriminate.
    unfold Remote.loop, Remote.breatheLeds, Remote.sendButtonPress,
      Remote.read_buttonPressed, Remote.write_buttonPressed, load, store.
    change (Z.to_nat Remote.buttonsCount) with 3%nat.
    destruct st; run_cases; cbn;
      repeat (constructor; try (vm_compute; split; discriminate)).
Qed.

Lemma X10_remote_sends_button_codes_witness :
  Forall Remote_possible [Remote.DataSent false] /\
  Forall (fun b => 0 <= b <= 3)
    (sent (output_of (Remote.run [Remote.DataSent false] Remote.initial))).
Proof.
  assert (H : Forall Remote_possible [Remote.DataSent false])
    by (repeat constructor).
  split.
  - exact H.
  - exact (proj1 (X10_remote_sends_button_codes _ H)).
Defined.

(** X11.  A signal flag of the remote that is set stays set through every
    callback and every pass through [loop], except the pass that consumes
    it: [startSignal] in ready, which moves to playing, and [wonSignal],
    [rightGuess], [wrongGuess] in guessed, which move to won, correct and
    wrong.  A command received in another state is therefore kept for
    later. *)
Theorem X11_remote_signals_stay_latched :
  forall e g g' o,
    Remote.handle e g = Ok (tt, g', o) ->
    (Remote.startSignal g = true ->
     Remote.startSignal g' = true \/
     (Remote.state g = Remote.ready /\ Remote.state g' = Remote.playing)) /\
    (Remote.wonSignal g = true ->
     Remote.wonSignal g' = true \/
     (Remote.state g = Remote.guessed /\ Remote.state g' = Remote.won)) /\
    (Remote.rightGuess g = true ->
     Remote.rightGuess g' = true \/
     (Remote.state g = Remote.guessed /\
      Remote.state g' = Remote.correct)) /\
    (Remote.wrongGuess g = true ->
     Remote.wrongGuess g' = true \/
     (Remote.state g = Remote.guessed /\ Remote.state g' = Remote.wrong)).
Proof.
  intros e g g' o H.
  destruct g as [lsm st ss rg wg ws bp ldt lsu lbu lblu lk].
  destruct e as [now queued|i t|data|ok]; cbn [Remote.handle] in H.
  - unfold Remote.loop, Remote.breatheLeds, Remote.sendButtonPress,
      Remote.read_buttonPressed, Remote.write_buttonPressed, load, store
      in H.
    change (Z.to_nat Remote.buttonsCount) with 3%nat in H.
    destruct st; split_result; cbn; repeat split; intros; auto;
      try discriminate.
  - unfold Remote.onButtonPress, Remote.read_lastDebounceTime,
      Remote.write_buttonPressed, Remote.write_lastDebounceTime, load, store
      in H.
    split_result; cbn; repeat split; intros; auto.
  - unfold Remote.onDataRecv, load in H.
    split_result; cbn; repeat split; intros; auto.
  - unfold Remote.onDataSent in H.
    destruct ok; cbn in H; inversion H; subst; cbn; repeat split; intros;
      auto.
Qed.

Lemma X11_remote_signals_stay_latched_witness :
  Remote.handle (Remote.DataRecv [Remote.CMD_GOOD_GUESS])
    FurtherScenario.start_latched =
    Ok (tt, Remote.set_rightGuess true FurtherScenario.start_latched, []) /\
  (Remote.startSignal FurtherScenario.start_latched = true ->
   Remote.startSignal
     (Remote.set_rightGuess true FurtherScenario.start_latched) = true \/
   (Remote.state FurtherScenario.start_latched = Remote.ready /\
    Remote.state
      (Remote.set_rightGuess true FurtherScenario.start_latched) =
      Remote.playing)).
Proof.
  assert (H : Remote.handle (Remote.DataRecv [Remote.CMD_GOOD_GUESS])
                FurtherScenario.start_latched =
              Ok (tt, Remote.set_rightGuess true
                        FurtherScenario.start_latched, []))
    by (vm_compute; reflexivity).
  split.
  - exact H.
  - exact (proj1 (X11_remote_signals_stay_latched _ _ _ _ H)).
Defined.

(** X12.  A pass of the remote through [loop] in playing clears all three
    button flags and transmits the code [i + 1] of every pressed button, in
    the order of the indices, also after an earlier transmission was
    accepted.  It ends in guessed when at least one transmission was
    accepted and stays in playing otherwise: a press whose transmission is
    refused is lost. *)
Theorem X12_remote_playing_pass :
  forall g now queued b0 b1 b2,
    Remote.state g = Remote.playing ->
    Remote.buttonPressed g = [b0; b1; b2] ->
    exists g' o,
      Remote.loop now queued g = Ok (tt, g', o) /\
      Remote.buttonPressed g' = [false; false; false] /\
      sent o = (if b0 then [1] else []) ++ (if b1 then [2] else [])
               ++ (if b2 then [3] else []) /\
      Remote.state g' =
        (if (b0 && queued 0) || (b1 && queued 1) || (b2 && queued 2)
         then Remote.guessed else Remote.playing) /\
      Remote.locked g' = false.
Proof.
  intros g now queued b0 b1 b2 Hst Hbp.
  destruct g as [lsm st ss rg wg ws bp ldt lsu lbu lblu lk].
  cbn in Hst, Hbp. subst st bp.
  unfold Remote.loop, Remote.sendButtonPress,
    Remote.read_buttonPressed, Remote.write_buttonPressed, load, store.
  change (Z.to_nat Remote.buttonsCount) with 3%nat.
  destruct b0, b1, b2; run_cases;
    do 2 eexists; (split; [reflexivity|]); repeat split.
Qed.

Lemma X12_remote_playing_pass_witness :
  (Remote.state FurtherScenario.two_buttons_pressed = Remote.playing /\
   Remote.buttonPressed FurtherScenario.two_buttons_pressed =
     [true; false; true]) /\
  exists g' o,
    Remote.loop 900 FurtherScenario.first_only
      FurtherScenario.two_buttons_pressed = Ok (tt, g', o) /\
    Remote.buttonPressed g' = [false; false; false] /\
    sent o = [1; 3] /\
    Remote.state g' = Remote.guessed.
Proof.
  split.
  - split; reflexivity.
  - destruct (X12_remote_playing_pass FurtherScenario.two_buttons_pressed
                900 FurtherScenario.first_only true false true
                eq_refl eq_refl)
      as (g' & o & Hrun & Hbp & Hsent & Hst & _).
    exists g', o.
    split; [exact Hrun|]. split; [exact Hbp|].
    split; [exact Hsent|exact Hst].
Defined.

(** X13.  When two buttons were sent one after the other and a failure
    status then arrives, [onDataSent] resends five times the code of the
    button sent last, whichever transmission the status belongs to. *)
Theorem X13_retry_resends_the_latest_byte :
  forall g i j queued_j queued_i,
    sent (output_of
            ((Remote.sendButtonPress j queued_j ;;
              Remote.sendButtonPress i queued_i ;;
              Remote.onDataSent false) g)) =
      [wrap8 (j + 1); wrap8 (i + 1)] ++ repeat (wrap8 (i + 1)) 5.
Proof.
  intros g i j queued_j queued_i.
  unfold Remote.sendButtonPress, Remote.onDataSent.
  destruct queued_j, queued_i; reflexivity.
Qed.
